(** * Cryptography portfolio: the client-side controllers

    A shallow embedding of the three scripts of the site
    - the hash function visualizer controller,
    - the RSA interactive tool controller,
    - the dark mode toggle,
    followed by the properties stated about them.

    Conventions.
    - Text typed by the user (the [.value] of a text field) is a JavaScript
      string: a sequence of UTF-16 code units, here [list Z] with every unit
      in [0, 65536).
    - Text written in the scripts themselves (messages, element ids, option
      values of a [<select>], stage names) is kept as a Rocq [string], the
      bytes of the source file.
    - A [BigInt] is a [Z]; a [Number] that only ever holds an integer
      (a length, an index, a char code) is a [Z] too; a [Number] that holds a
      measurement (a percentage, a duration) is a binary64 [float].
    - The page is a record [World]: the part of the DOM the scripts read and
      write, [localStorage], the module-level variables of the scripts, and
      the list of effects performed so far on the helpers that only draw
      ([UIUtils], [DisplayComponents], [console]).
    - The helper modules whose results the controllers use ([HashCore],
      [HashUtils], [Config], [MathUtils]) are the fields of the class
      [Collaborators]. *)

From Stdlib Require Import ZArith Znumtheory Lia List String Ascii Floats.
From Stdlib Require Import DecimalZ DecimalPos Zmod.ZmodInv.
From stdpp Require Import base gmap strings list pretty.

#[local] Open Scope Z_scope.
#[local] Set Warnings "-register-all,-inexact-float".

(* ===================================================================== *)
(** * JavaScript strings and the built-ins the controllers call *)
(* ===================================================================== *)

Module JS.

Definition jsstring := list Z.

Definition code_unit (u : Z) : Prop := 0 <= u < 65536.

Definition well_formed (s : jsstring) : Prop := Forall code_unit s.

(** What evaluating a call can do: return, or throw an [Error] whose
    [.message] is kept. *)
Inductive completion (A : Type) : Type :=
| Normal (a : A)
| Throw (message : string).
Arguments Normal {A} a.
Arguments Throw {A} message.

(** [s.length] *)
Definition length (s : jsstring) : Z := Z.of_nat (List.length s).

(** [!s] for a string: only the empty string is falsy. *)
Definition falsy (s : jsstring) : bool :=
  match s with [] => true | _ :: _ => false end.

(** White space and line terminators, as [String.prototype.trim] sees them. *)
Definition is_white_space (u : Z) : bool :=
  (u =? 9) || (u =? 10) || (u =? 11) || (u =? 12) || (u =? 13) || (u =? 32)
  || (u =? 160) || (u =? 5760) || ((8192 <=? u) && (u <=? 8202))
  || (u =? 8232) || (u =? 8233) || (u =? 8239) || (u =? 8287)
  || (u =? 12288) || (u =? 65279).

Fixpoint trimStart (s : jsstring) : jsstring :=
  match s with
  | [] => []
  | u :: t => if is_white_space u then trimStart t else s
  end.

Definition trimEnd (s : jsstring) : jsstring := rev (trimStart (rev s)).

(** [s.trim()] *)
Definition trim (s : jsstring) : jsstring := trimEnd (trimStart s).

(** A relative index of [slice]: negative counts from the end, and the
    result is clamped to [0, len]. *)
Definition relative_index (len k : Z) : Z :=
  if k <? 0 then Z.max (len + k) 0 else Z.min k len.

(** [s.slice(start, stop)] *)
Definition slice (s : jsstring) (start stop : Z) : jsstring :=
  let len := length s in
  let from := relative_index len start in
  let to := relative_index len stop in
  take (Z.to_nat (Z.max (to - from) 0)) (drop (Z.to_nat from) s).

(** [s.charCodeAt(i)]: [None] stands for [NaN], the answer out of range. *)
Definition charCodeAt (s : jsstring) (i : Z) : option Z :=
  if i <? 0 then None else s !! Z.to_nat i.

(** [s.charAt(i)]: the empty string out of range. *)
Definition charAt (s : jsstring) (i : Z) : jsstring :=
  match charCodeAt s i with
  | Some u => [u]
  | None => []
  end.

(** [ToInt32], applied to the operands of [^]: [NaN] becomes 0, an integer
    is wrapped into [-2^31, 2^31). *)
Definition ToInt32 (x : option Z) : Z :=
  match x with
  | None => 0
  | Some z => (z + 2147483648) mod 4294967296 - 2147483648
  end.

(** [x ^ y] on Numbers. *)
Definition bitxor (x y : option Z) : Z := Z.lxor (ToInt32 x) (ToInt32 y).

(** [String.fromCharCode(x)]: one code unit, [x] modulo 2^16. *)
Definition fromCharCode (x : Z) : jsstring := [x mod 65536].

(** [a === b] on strings. *)
Definition strict_eq (a b : jsstring) : bool := bool_decide (a = b).

(** The code unit of an ASCII character of the source text. *)
Definition unit_of_ascii (c : ascii) : Z := Z.of_N (N_of_ascii c).

(** A literal of the source text as a JavaScript string (ASCII literals). *)
Fixpoint literal (s : string) : jsstring :=
  match s with
  | EmptyString => []
  | String c t => unit_of_ascii c :: literal t
  end.

(** ** [BigInt.prototype.toString()] and [BigInt(string)] *)

(** The code units of the digits 0 to 9. *)
Definition decimal_digit (u : Z) : Prop := 48 <= u <= 57.

Fixpoint units_of_uint (d : Decimal.uint) : jsstring :=
  match d with
  | Decimal.Nil => []
  | Decimal.D0 t => 48 :: units_of_uint t
  | Decimal.D1 t => 49 :: units_of_uint t
  | Decimal.D2 t => 50 :: units_of_uint t
  | Decimal.D3 t => 51 :: units_of_uint t
  | Decimal.D4 t => 52 :: units_of_uint t
  | Decimal.D5 t => 53 :: units_of_uint t
  | Decimal.D6 t => 54 :: units_of_uint t
  | Decimal.D7 t => 55 :: units_of_uint t
  | Decimal.D8 t => 56 :: units_of_uint t
  | Decimal.D9 t => 57 :: units_of_uint t
  end.

(** [z.toString()]: decimal digits, most significant first, ["0"] for zero
    and a leading [-] for a negative value. *)
Definition BigInt_toString (z : Z) : jsstring :=
  match z with
  | Z0 => [48]
  | Zpos p => units_of_uint (Pos.to_uint p)
  | Zneg p => 45 :: units_of_uint (Pos.to_uint p)
  end.

(** The value of a digit in a radix up to 16, if it is one. *)
Definition digit_value (radix u : Z) : option Z :=
  let v :=
    if (48 <=? u) && (u <=? 57) then Some (u - 48)
    else if (97 <=? u) && (u <=? 102) then Some (u - 87)
    else if (65 <=? u) && (u <=? 70) then Some (u - 55)
    else None in
  match v with
  | Some d => if d <? radix then Some d else None
  | None => None
  end.

Fixpoint parse_digits (radix : Z) (acc : Z) (s : jsstring) : option Z :=
  match s with
  | [] => Some acc
  | u :: t =>
      match digit_value radix u with
      | Some d => parse_digits radix (acc * radix + d) t
      | None => None
      end
  end.

(** At least one digit, all of them digits of the radix. *)
Definition parse_nonempty (radix : Z) (s : jsstring) : option Z :=
  match s with
  | [] => None
  | _ :: _ => parse_digits radix 0 s
  end.

(** The radix a literal announces by [0x], [0o] or [0b] (either case), with
    the digits that follow. *)
Definition radix_prefix (s : jsstring) : option (Z * jsstring) :=
  match s with
  | zero :: letter :: digits =>
      if zero =? 48 then
        if (letter =? 120) || (letter =? 88) then Some (16, digits)
        else if (letter =? 111) || (letter =? 79) then Some (8, digits)
        else if (letter =? 98) || (letter =? 66) then Some (2, digits)
        else None
      else None
  | _ => None
  end.

(** The grammar of [StringToBigInt] after trimming: the empty string is 0;
    a sign is followed by decimal digits; [0x], [0o], [0b] introduce an
    unsigned literal in radix 16, 8, 2; otherwise decimal digits. *)
Definition StringToBigInt (s : jsstring) : option Z :=
  match trim s with
  | [] => Some 0
  | first :: rest =>
      if first =? 45 then Z.opp <$> parse_nonempty 10 rest
      else if first =? 43 then parse_nonempty 10 rest
      else
        match radix_prefix (first :: rest) with
        | Some (radix, digits) => parse_nonempty radix digits
        | None => parse_nonempty 10 (first :: rest)
        end
  end.

(** [BigInt(s)] for a string argument: a [SyntaxError] when the text is not
    an integer literal. *)
Definition BigInt (s : jsstring) : completion Z :=
  match StringToBigInt s with
  | Some z => Normal z
  | None => Throw "Cannot convert string to a BigInt"
  end.

End JS.

Export JS (jsstring, completion, Normal, Throw).

(* ===================================================================== *)
(** * The page: DOM, storage, module variables, effects *)
(* ===================================================================== *)

(** A fragment of HTML assembled by a controller: text, or an element with
    its [class] attribute and its children. *)
Inductive Html : Type :=
| Text (text : string)
| Element (tag : string) (class : option string) (children : list Html).

(** ** Data of the hash page *)

(** One entry of the [results] object of [handleComputeHash]. *)
Record HashEntry : Type := {
  entry_hash : string;
  entry_time : string
}.

(** What [Config.getAlgorithmInfo] returns for a known algorithm. *)
Record AlgorithmInfo : Type := {
  info_name : string;
  info_outputBits : float
}.

(** A row of the birthday table. *)
Record BirthdayRow : Type := {
  row_attempts : float;
  row_label : string;
  row_probability : float;
  row_assessment : Html
}.

(** ** Data of the RSA page *)

Record PublicKey : Type := { pub_e : Z; pub_n : Z }.
Record PrivateKey : Type := { priv_d : Z; priv_n : Z }.

Record KeyPair : Type := {
  publicKey : PublicKey;
  privateKey : PrivateKey;
  key_p : Z;
  key_q : Z;
  key_phi : Z
}.

(** The second argument of the progress callback of key generation. *)
Record Attempt : Type := {
  attempt : Z;
  isPrime : bool
}.

(** ** The collaborators *)

(** The modules the controllers call for their results. [Avalanche] is the
    object [HashUtils.computeAvalanche] returns; the controller reads its
    [percentage] through [parseFloat]. The last fields are the formatting
    built-ins of [Number]. *)
Class Collaborators : Type := {
  Avalanche : Type;
  HashCore_computeHash : jsstring -> string -> completion string;
  HashUtils_computeAvalanche : string -> string -> completion Avalanche;
  avalanche_percentage : Avalanche -> float;
  HashUtils_attemptsFor50PercentCollision : float -> string;
  HashUtils_birthdayAttackProbability : float -> float -> float;
  HashUtils_formatLargeNumber : float -> string;
  Config_getAlgorithmInfo : string -> option AlgorithmInfo;
  MathUtils_stringToBigInt : jsstring -> completion Z;
  MathUtils_bigIntToString : Z -> completion jsstring;
  MathUtils_bitLength : Z -> Z;
  Math_pow : float -> float -> float;
  Number_toString : float -> string;
  Number_toFixed : float -> Z -> string;
  Number_toExponential : float -> Z -> string;
  parseInt : string -> Z
}.

(** ** What is drawn *)

(** The argument of [UIUtils.displayResults]: the data each HTML fragment is
    assembled from. *)
Inductive View `{Collaborators} : Type :=
| HashResultsView (input : jsstring) (results : gmap string HashEntry)
    (totalTime : string)
| AvalancheView (original modified : jsstring) (hash1 hash2 : string)
    (avalanche : Avalanche) (quality color : string) (algorithm : string)
| BirthdayView (info : AlgorithmInfo) (attempts50 : string)
    (probabilities : list BirthdayRow) (years : string)
| KeysView (keys : KeyPair) (duration : string)
| EncryptionView (originalMessage : jsstring) (messageInt ciphertext : jsstring)
    (duration : string) (key : PublicKey)
| DecryptionView (ciphertext plaintextInt : jsstring) (plaintextStr : jsstring)
    (duration : string) (key : PrivateKey).

(** A call into the modules that compute. *)
Inductive Computation : Type :=
| ComputeHash (input : jsstring) (algo : string)
| ComputeAvalanche (hash1 hash2 : string)
| BirthdayProbability (hashBits attempts : float)
| AttemptsFor50 (hashBits : float)
| StringToBigInt (message : jsstring)
| BigIntToString (value : Z)
| GenerateKeyPair (keySize : Z)
| Encrypt (messageInt : Z) (key : PublicKey)
| Decrypt (ciphertext : Z) (key : PrivateKey).

(** The effects, in the order they happen. [Started] and [Settled] bracket
    an awaited call: the controller is suspended between the two. *)
Inductive Event `{Collaborators} : Type :=
| ShowError (message : string)
| ClearResults (ids : list string)
| ShowLoading (id message : string)
| HideLoading (id : string)
| DisplayResults (id : string) (view : View)
| SetupCopyButtons
| SetButtonLoading (id label : string)
| ResetButton (id label : string)
| ScrollToElement (id : string)
| SetInnerHTML (id : string) (html : list Html)
| EnableButton (id : string)
| ConsoleLog (message : string)
| ConsoleError (message : string)
| Started (call : Computation)
| Settled (call : Computation)
| Called (call : Computation).

(** The [#theme-toggle] button. *)
Record ToggleButton : Type := {
  textContent : string;
  ariaLabel : string;
  clickListeners : nat
}.

Record World `{Collaborators} : Type := {
  (** the [.value] of the text fields, by element id *)
  fields : string -> jsstring;
  (** the [.value] of the [<select>] elements, by element id *)
  selects : string -> string;
  (** the values of the checked [input[name="hash-algorithm"]] boxes, in
      document order *)
  checkedAlgorithms : list string;
  (** the [data-theme] attribute of the root element *)
  dataTheme : option string;
  (** the toggle button, when the page has one *)
  themeToggle : option ToggleButton;
  (** [matchMedia('(prefers-color-scheme: dark)').matches] *)
  prefersDark : bool;
  localStorage : gmap string string;
  (** module variables of the hash controller *)
  currentHashes : gmap string HashEntry;
  lastInput : jsstring;
  (** module variables of the RSA controller *)
  currentKeys : option KeyPair;
  lastCiphertext : option Z;
  (** the readings [performance.now()] will give, the next one first *)
  clock : nat -> float;
  (** the candidates the random generator will give, the next one first *)
  entropy : list Z;
  (** the effects performed so far, the latest first *)
  effects : list Event
}.

Section Updates.
Context `{Collaborators}.

Definition set_fields (f : string -> jsstring) (w : World) : World :=
  {| fields := f; selects := selects w;
     checkedAlgorithms := checkedAlgorithms w; dataTheme := dataTheme w;
     themeToggle := themeToggle w; prefersDark := prefersDark w;
     localStorage := localStorage w; currentHashes := currentHashes w;
     lastInput := lastInput w; currentKeys := currentKeys w;
     lastCiphertext := lastCiphertext w; clock := clock w;
     entropy := entropy w; effects := effects w |}.

Definition set_dataTheme (t : option string) (w : World) : World :=
  {| fields := fields w; selects := selects w;
     checkedAlgorithms := checkedAlgorithms w; dataTheme := t;
     themeToggle := themeToggle w; prefersDark := prefersDark w;
     localStorage := localStorage w; currentHashes := currentHashes w;
     lastInput := lastInput w; currentKeys := currentKeys w;
     lastCiphertext := lastCiphertext w; clock := clock w;
     entropy := entropy w; effects := effects w |}.

Definition set_themeToggle (b : option ToggleButton) (w : World) : World :=
  {| fields := fields w; selects := selects w;
     checkedAlgorithms := checkedAlgorithms w; dataTheme := dataTheme w;
     themeToggle := b; prefersDark := prefersDark w;
     localStorage := localStorage w; currentHashes := currentHashes w;
     lastInput := lastInput w; currentKeys := currentKeys w;
     lastCiphertext := lastCiphertext w; clock := clock w;
     entropy := entropy w; effects := effects w |}.

Definition set_localStorage (s : gmap string string) (w : World) : World :=
  {| fields := fields w; selects := selects w;
     checkedAlgorithms := checkedAlgorithms w; dataTheme := dataTheme w;
     themeToggle := themeToggle w; prefersDark := prefersDark w;
     localStorage := s; currentHashes := currentHashes w;
     lastInput := lastInput w; currentKeys := currentKeys w;
     lastCiphertext := lastCiphertext w; clock := clock w;
     entropy := entropy w; effects := effects w |}.

Definition set_currentHashes (h : gmap string HashEntry) (w : World) : World :=
  {| fields := fields w; selects := selects w;
     checkedAlgorithms := checkedAlgorithms w; dataTheme := dataTheme w;
     themeToggle := themeToggle w; prefersDark := prefersDark w;
     localStorage := localStorage w; currentHashes := h;
     lastInput := lastInput w; currentKeys := currentKeys w;
     lastCiphertext := lastCiphertext w; clock := clock w;
     entropy := entropy w; effects := effects w |}.

Definition set_lastInput (s : jsstring) (w : World) : World :=
  {| fields := fields w; selects := selects w;
     checkedAlgorithms := checkedAlgorithms w; dataTheme := dataTheme w;
     themeToggle := themeToggle w; prefersDark := prefersDark w;
     localStorage := localStorage w; currentHashes := currentHashes w;
     lastInput := s; currentKeys := currentKeys w;
     lastCiphertext := lastCiphertext w; clock := clock w;
     entropy := entropy w; effects := effects w |}.

Definition set_currentKeys (k : option KeyPair) (w : World) : World :=
  {| fields := fields w; selects := selects w;
     checkedAlgorithms := checkedAlgorithms w; dataTheme := dataTheme w;
     themeToggle := themeToggle w; prefersDark := prefersDark w;
     localStorage := localStorage w; currentHashes := currentHashes w;
     lastInput := lastInput w; currentKeys := k;
     lastCiphertext := lastCiphertext w; clock := clock w;
     entropy := entropy w; effects := effects w |}.

Definition set_lastCiphertext (c : option Z) (w : World) : World :=
  {| fields := fields w; selects := selects w;
     checkedAlgorithms := checkedAlgorithms w; dataTheme := dataTheme w;
     themeToggle := themeToggle w; prefersDark := prefersDark w;
     localStorage := localStorage w; currentHashes := currentHashes w;
     lastInput := lastInput w; currentKeys := currentKeys w;
     lastCiphertext := c; clock := clock w;
     entropy := entropy w; effects := effects w |}.

Definition set_clock (c : nat -> float) (w : World) : World :=
  {| fields := fields w; selects := selects w;
     checkedAlgorithms := checkedAlgorithms w; dataTheme := dataTheme w;
     themeToggle := themeToggle w; prefersDark := prefersDark w;
     localStorage := localStorage w; currentHashes := currentHashes w;
     lastInput := lastInput w; currentKeys := currentKeys w;
     lastCiphertext := lastCiphertext w; clock := c;
     entropy := entropy w; effects := effects w |}.

Definition set_entropy (e : list Z) (w : World) : World :=
  {| fields := fields w; selects := selects w;
     checkedAlgorithms := checkedAlgorithms w; dataTheme := dataTheme w;
     themeToggle := themeToggle w; prefersDark := prefersDark w;
     localStorage := localStorage w; currentHashes := currentHashes w;
     lastInput := lastInput w; currentKeys := currentKeys w;
     lastCiphertext := lastCiphertext w; clock := clock w;
     entropy := e; effects := effects w |}.

Definition set_effects (l : list Event) (w : World) : World :=
  {| fields := fields w; selects := selects w;
     checkedAlgorithms := checkedAlgorithms w; dataTheme := dataTheme w;
     themeToggle := themeToggle w; prefersDark := prefersDark w;
     localStorage := localStorage w; currentHashes := currentHashes w;
     lastInput := lastInput w; currentKeys := currentKeys w;
     lastCiphertext := lastCiphertext w; clock := clock w;
     entropy := entropy w; effects := l |}.

(** Perform one effect. *)
Definition emit (e : Event) (w : World) : World :=
  set_effects (e :: effects w) w.

(** [performance.now()]: the next reading of the clock. *)
Definition performance_now (w : World) : float * World :=
  (clock w 0%nat, set_clock (fun k => clock w (S k)) w).

(** [await f(...)]: the call starts, the controller is suspended until the
    promise settles, then goes on with the result. *)
Definition await {A : Type} (call : Computation) (result : completion A)
    (w : World) : completion A * World :=
  (result, emit (Settled call) (emit (Started call) w)).

(** A plain call into a computing module. *)
Definition invoke {A : Type} (call : Computation) (result : A)
    (w : World) : A * World :=
  (result, emit (Called call) w).

End Updates.

(* ===================================================================== *)
(** * The dark mode toggle (js/dark-mode-toggle.js) *)
(* ===================================================================== *)

Module Theme.
Section Theme.
Context `{Collaborators}.

(** A string used as a condition: [null] and the empty string are falsy. *)
Definition truthy (s : option string) : option string :=
  match s with
  | Some EmptyString => None
  | other => other
  end.

Definition getThemePreference (w : World) : string :=
  match truthy (localStorage w !! "theme"%string) with
  | Some saved => saved
  | None => if prefersDark w then "dark" else "light"
  end%string.

Definition applyTheme (theme : string) (w : World) : World :=
  let w := set_dataTheme (Some theme) w in
  let w := set_localStorage (<["theme"%string := theme]> (localStorage w)) w in
  match themeToggle w with
  | Some btn =>
      set_themeToggle
        (Some {| textContent :=
                   if String.eqb theme "dark" then "🌕" else "🌑";
                 ariaLabel :=
                   if String.eqb theme "dark" then "Switch to light mode"
                   else "Switch to dark mode";
                 clickListeners := clickListeners btn |}) w
  | None => w
  end.

Definition toggleTheme (w : World) : World :=
  let current := default "light"%string (truthy (dataTheme w)) in
  let next := if String.eqb current "dark" then "light" else "dark" in
  applyTheme next%string w.

Definition initTheme (w : World) : World :=
  let theme := getThemePreference w in
  let w := applyTheme theme w in
  match themeToggle w with
  | Some btn =>
      set_themeToggle
        (Some {| textContent := textContent btn; ariaLabel := ariaLabel btn;
                 clickListeners := S (clickListeners btn) |}) w
  | None => w
  end.

(** The listener for changes of the system preference. *)
Definition onSystemThemeChange (matches : bool) (w : World) : World :=
  match truthy (localStorage w !! "theme"%string) with
  | Some _ => w
  | None => applyTheme (if matches then "dark" else "light")%string w
  end.

End Theme.
End Theme.

(* ===================================================================== *)
(** * The hash function visualizer controller *)
(* ===================================================================== *)

Module HashUI.
Section HashUI.
Context `{Collaborators}.

(** ** Hash computation *)

Definition getSelectedAlgorithms (w : World) : list string :=
  checkedAlgorithms w.

Definition displayHashResults (input : jsstring)
    (results : gmap string HashEntry) (totalTime : string) (w : World) : World :=
  let w := emit (DisplayResults "hash-results"
                   (HashResultsView input results totalTime)) w in
  emit SetupCopyButtons w.

(** The [for (const algo of selectedAlgos)] loop of [handleComputeHash]:
    the algorithms still to do, the [results] object so far. A rejected
    promise leaves the loop at once. *)
Fixpoint computeSelected (input : jsstring) (algos : list string)
    (results : gmap string HashEntry) (w : World)
    : completion (gmap string HashEntry) * World :=
  match algos with
  | [] => (Normal results, w)
  | algo :: rest =>
      let '(algoStartTime, w) := performance_now w in
      let '(outcome, w) :=
        await (ComputeHash input algo) (HashCore_computeHash input algo) w in
      match outcome with
      | Throw message => (Throw message, w)
      | Normal hash =>
          let '(algoEndTime, w) := performance_now w in
          let entry :=
            {| entry_hash := hash;
               entry_time :=
                 Number_toFixed (algoEndTime - algoStartTime)%float 2 |} in
          computeSelected input rest (<[algo := entry]> results) w
      end
  end.

Definition handleComputeHash (w : World) : World :=
  let input := fields w "hash-input"%string in
  let selectedAlgos := getSelectedAlgorithms w in
  if JS.falsy input then
    emit (ShowError "Please enter text to hash") w
  else if (Z.of_nat (List.length selectedAlgos) =? 0) then
    emit (ShowError "Please select at least one hash algorithm") w
  else
    let w := emit (ClearResults ["hash-results"%string]) w in
    let w := emit (ShowLoading "hash-results" "Computing hashes...") w in
    let w :=
      let '(startTime, w) := performance_now w in
      let '(outcome, w) := computeSelected input selectedAlgos ∅ w in
      match outcome with
      | Normal results =>
          let '(endTime, w) := performance_now w in
          let totalTime := Number_toFixed (endTime - startTime)%float 2 in
          let w := set_currentHashes results w in
          let w := set_lastInput input w in
          displayHashResults input results totalTime w
      | Throw message =>
          let w := emit (ConsoleError "Hash computation failed:") w in
          emit (ShowError ("Hash computation failed: " ++ message)) w
      end in
    emit (HideLoading "hash-results") w.

(** ** Avalanche effect *)

(** The [modifiedInput] of [handleAvalanche]: the base input with the last
    bit of its last character flipped, except that [~] becomes [|]. *)
Definition modifiedInput (baseInput : jsstring) : jsstring :=
  JS.slice baseInput 0 (-1) ++
  JS.fromCharCode
    (if JS.strict_eq (JS.charAt baseInput (JS.length baseInput - 1))
          (JS.literal "~")
     then 124
     else JS.bitxor (JS.charCodeAt baseInput (JS.length baseInput - 1))
            (Some 1)).

(** The quality and colour chosen in [displayAvalancheResults]. *)
Definition avalancheQuality (percentage : float) : string * string :=
  if ((45 <=? percentage) && (percentage <=? 55))%float then
    ("Excellent", "green")%string
  else if ((40 <=? percentage) && (percentage <=? 60))%float then
    ("Good", "blue")%string
  else
    ("Poor", "red")%string.

(** [displayAvalancheResults]. The binary strings and the bit difference it
    computes go into the HTML only and are part of the view. Reading
    [info.name] throws a [TypeError] when the algorithm is unknown to
    [Config]; the text of that error is the engine's. *)
Definition displayAvalancheResults (original modified : jsstring)
    (hash1 hash2 : string) (avalanche : Avalanche) (algorithm : string)
    (w : World) : completion unit * World :=
  match Config_getAlgorithmInfo algorithm with
  | None => (Throw "Cannot read properties of undefined (reading 'name')", w)
  | Some info =>
      let percentage := avalanche_percentage avalanche in
      let '(quality, color) := avalancheQuality percentage in
      (Normal tt,
       emit (DisplayResults "avalanche-results"
               (AvalancheView original modified hash1 hash2 avalanche
                  quality color algorithm)) w)
  end.

(** The [try] block of [handleAvalanche]. *)
Definition avalancheTest (baseInput : jsstring) (algorithm : string)
    (w : World) : completion unit * World :=
  let '(outcome1, w) :=
    await (ComputeHash baseInput algorithm)
      (HashCore_computeHash baseInput algorithm) w in
  match outcome1 with
  | Throw message => (Throw message, w)
  | Normal originalHash =>
      let modified := modifiedInput baseInput in
      let '(outcome2, w) :=
        await (ComputeHash modified algorithm)
          (HashCore_computeHash modified algorithm) w in
      match outcome2 with
      | Throw message => (Throw message, w)
      | Normal modifiedHash =>
          let '(outcome3, w) :=
            invoke (ComputeAvalanche originalHash modifiedHash)
              (HashUtils_computeAvalanche originalHash modifiedHash) w in
          match outcome3 with
          | Throw message => (Throw message, w)
          | Normal avalanche =>
              displayAvalancheResults baseInput modified originalHash
                modifiedHash avalanche algorithm w
          end
      end
  end.

Definition handleAvalanche (w : World) : World :=
  let baseInput := fields w "avalanche-input"%string in
  let algorithm := selects w "avalanche-algorithm"%string in
  if JS.falsy baseInput then
    emit (ShowError "Please enter base text for avalanche test") w
  else
    let w := emit (ClearResults ["avalanche-results"%string]) w in
    let w :=
      emit (ShowLoading "avalanche-results" "Computing avalanche effect...") w in
    let w :=
      match avalancheTest baseInput algorithm w with
      | (Normal _, w) => w
      | (Throw message, w) =>
          let w := emit (ConsoleError "Avalanche test failed:") w in
          emit (ShowError ("Avalanche test failed: " ++ message)) w
      end in
    emit (HideLoading "avalanche-results") w.

(** ** Birthday attack *)

Definition assessment (probability : float) : Html :=
  if (probability <? 0.000001)%float then
    Element "span" (Some "secure") [Text "✅ Effectively Impossible"]
  else if (probability <? 0.01)%float then
    Element "span" (Some "secure") [Text "✅ Highly Secure"]
  else if (probability <? 10)%float then
    Element "span" (Some "warning") [Text "⚠️ Possible with Resources"]
  else
    Element "span" (Some "insecure") [Text "⛔ Practical Attack"].

(** One element of the array mapped in [handleBirthdayCalculator]. *)
Definition birthdayRow (hashBits attempts : float) (label : string)
    (w : World) : BirthdayRow * World :=
  let '(p, w) :=
    invoke (BirthdayProbability hashBits attempts)
      (HashUtils_birthdayAttackProbability hashBits attempts) w in
  let probability := (p * 100)%float in
  ({| row_attempts := attempts; row_label := label;
      row_probability := probability;
      row_assessment := assessment probability |}, w).

Fixpoint birthdayRows (hashBits : float) (items : list (float * string))
    (w : World) : list BirthdayRow * World :=
  match items with
  | [] => ([], w)
  | (attempts, label) :: rest =>
      let '(row, w) := birthdayRow hashBits attempts label w in
      let '(rows, w) := birthdayRows hashBits rest w in
      (row :: rows, w)
  end.

Definition estimateCollisionTime (hashBits : float) : string :=
  let hashesPerSecond := 1e9%float in
  let attemptsNeeded := Math_pow 2 (hashBits / 2)%float in
  let secondsNeeded := (attemptsNeeded / hashesPerSecond)%float in
  let yearsNeeded := (secondsNeeded / (365.25 * 24 * 3600))%float in
  if (1e20 <? yearsNeeded)%float then
    "> 10^20 (far exceeds age of universe)"
  else if (1e10 <? yearsNeeded)%float then
    Number_toExponential yearsNeeded 2
  else
    HashUtils_formatLargeNumber yearsNeeded.

Definition displayBirthdayResults (info : AlgorithmInfo) (attempts50 : string)
    (probabilities : list BirthdayRow) (w : World) : World :=
  emit (DisplayResults "birthday-results"
          (BirthdayView info attempts50 probabilities
             (estimateCollisionTime (info_outputBits info)))) w.

Definition handleBirthdayCalculator (w : World) : World :=
  let algorithm := selects w "birthday-algorithm"%string in
  match Config_getAlgorithmInfo algorithm with
  | None => emit (ShowError "Invalid algorithm selected") w
  | Some info =>
      let hashBits := info_outputBits info in
      let '(attempts50, w) :=
        invoke (AttemptsFor50 hashBits)
          (HashUtils_attemptsFor50PercentCollision hashBits) w in
      let items :=
        [ (Math_pow 2 (hashBits / 4)%float,
           "2^" ++ Number_toString (hashBits / 4)%float);
          (Math_pow 2 (hashBits / 3)%float,
           "2^" ++ Number_toFixed (hashBits / 3)%float 1);
          (Math_pow 2 (hashBits / 2)%float,
           "2^" ++ Number_toString (hashBits / 2)%float);
          (Math_pow 2 (hashBits / 1.5)%float,
           "2^" ++ Number_toFixed (hashBits / 1.5)%float 1) ]%string in
      let '(probabilities, w) := birthdayRows hashBits items w in
      displayBirthdayResults info attempts50 probabilities w
  end.

End HashUI.
End HashUI.

(* ===================================================================== *)
(** * Textbook RSA *)
(* ===================================================================== *)

Module RSACore.

(** Modelled from the spec: the module [RSACore] ([generateKeyPair],
    [encrypt], [decrypt]) is not among the sources. The spec describes it as
    the textbook RSA flow: prime generation with primality testing, the
    modulus and the totient, the extended Euclidean algorithm for the modular
    inverse, and modular exponentiation. The stage names are the ones
    [updateProgress] switches on. Operands are non-negative throughout, where
    the [%] and [/] of BigInt are [mod] and [/] of [Z]. *)

(** Modelled from the spec: modular exponentiation, by squaring, the
    exponent read from its lowest bit. *)
Fixpoint modPow_loop (result base : Z) (exponent : positive) (modulus : Z) : Z :=
  match exponent with
  | xH => (result * base) mod modulus
  | xO half =>
      modPow_loop result ((base * base) mod modulus) half modulus
  | xI half =>
      modPow_loop ((result * base) mod modulus) ((base * base) mod modulus)
        half modulus
  end.

(** Modelled from the spec: [modPow(base, exponent, modulus)]. *)
Definition modPow (base exponent modulus : Z) : Z :=
  match exponent with
  | Zpos e => modPow_loop 1 (base mod modulus) e modulus
  | _ => 1 mod modulus
  end.

(** Modelled from the spec: the extended Euclidean algorithm, giving
    [(g, x, y)] with [a * x + b * y = g]. The recursion is on [b], which
    decreases; [steps] bounds its depth. *)
Fixpoint extendedGcd_steps (steps : nat) (a b : Z) : Z * Z * Z :=
  match steps with
  | O => (a, 1, 0)
  | S steps' =>
      if b =? 0 then (a, 1, 0)
      else
        let '(g, x, y) := extendedGcd_steps steps' b (a mod b) in
        (g, y, x - (a / b) * y)
  end.

Definition extendedGcd (a b : Z) : Z * Z * Z :=
  extendedGcd_steps (S (Z.to_nat b)) a b.

(** Modelled from the spec: the modular inverse, when there is one. *)
Definition modInverse (a m : Z) : option Z :=
  let '(g, x, _) := extendedGcd a m in
  if g =? 1 then Some (x mod m) else None.

(** Modelled from the spec: primality testing, here by trial division. *)
Definition isPrimeNumber (n : Z) : bool :=
  (1 <? n) && forallb (fun d => negb (n mod d =? 0)) (seqZ 2 (n - 2)).

(** One call of the progress callback. *)
Definition Report : Type := string * option Attempt.

(** Modelled from the spec: prime generation. Candidates are drawn until one
    is accepted; every draw is reported. The result is the prime and the
    candidates left, or nothing when the candidates run out. *)
Fixpoint generatePrime (stage : string) (accept : Z -> bool) (attemptNo : Z)
    (candidates : list Z) : list Report * option (Z * list Z) :=
  match candidates with
  | [] => ([], None)
  | c :: rest =>
      if accept c then
        ([(stage, Some {| attempt := attemptNo; isPrime := true |})],
         Some (c, rest))
      else
        let '(reports, found) :=
          generatePrime stage accept (attemptNo + 1) rest in
        ((stage, Some {| attempt := attemptNo; isPrime := false |}) :: reports,
         found)
  end.

(** Modelled from the spec: the customary public exponent. *)
Definition publicExponent : Z := 65537.

(** Modelled from the spec: [generateKeyPair(keySize, onProgress)]. Two
    distinct primes, the modulus, the totient, the private exponent. The
    result is the calls of [onProgress] in order, the key pair or the
    message of the error thrown, and the candidates left. [keySize] fixes
    the size of the candidates the generator draws, which are given. *)
Definition generateKeyPair (keySize : Z) (candidates : list Z)
    : list Report * completion KeyPair * list Z :=
  match generatePrime "Generating prime p" isPrimeNumber 1 candidates with
  | (reports_p, None) =>
      (reports_p, Throw "Failed to generate prime p", [])
  | (reports_p, Some (p, candidates)) =>
      match generatePrime "Generating prime q"
              (fun c => isPrimeNumber c && negb (c =? p)) 1 candidates with
      | (reports_q, None) =>
          (reports_p ++ reports_q, Throw "Failed to generate prime q", [])
      | (reports_q, Some (q, candidates)) =>
          let n := p * q in
          let phi := (p - 1) * (q - 1) in
          let reports :=
            reports_p ++ reports_q ++
            [("Computing modulus n", None); ("Computing φ(n)", None);
             ("Computing private exponent d", None)]%string in
          match modInverse publicExponent phi with
          | None => (reports, Throw "Modular inverse does not exist", candidates)
          | Some d =>
              (reports ++ [("Complete"%string, None)],
               Normal {| publicKey := {| pub_e := publicExponent; pub_n := n |};
                         privateKey := {| priv_d := d; priv_n := n |};
                         key_p := p; key_q := q; key_phi := phi |},
               candidates)
          end
      end
  end.

(** Modelled from the spec: [encrypt(messageInt, publicKey)]. *)
Definition encrypt (messageInt : Z) (key : PublicKey) : Z :=
  modPow messageInt (pub_e key) (pub_n key).

(** Modelled from the spec: [decrypt(ciphertext, privateKey)]. *)
Definition decrypt (ciphertext : Z) (key : PrivateKey) : Z :=
  modPow ciphertext (priv_d key) (priv_n key).

End RSACore.

(** A key pair of textbook RSA: two distinct primes, their product as the
    modulus of both keys, the totient, and exponents inverse to each other
    modulo the totient. *)
Record textbook_keys (keys : KeyPair) : Prop := {
  prime_p : Z.prime (key_p keys);
  prime_q : Z.prime (key_q keys);
  distinct_primes : key_p keys <> key_q keys;
  public_modulus : pub_n (publicKey keys) = key_p keys * key_q keys;
  private_modulus : priv_n (privateKey keys) = key_p keys * key_q keys;
  totient : key_phi keys = (key_p keys - 1) * (key_q keys - 1);
  public_exponent : 0 < pub_e (publicKey keys);
  private_exponent : 0 <= priv_d (privateKey keys);
  inverse_exponents :
    (pub_e (publicKey keys) * priv_d (privateKey keys)) mod key_phi keys = 1
}.

(* ===================================================================== *)
(** * The RSA interactive tool controller *)
(* ===================================================================== *)

Module RSAUI.
Section RSAUI.
Context `{Collaborators}.

(** ** Key generation *)

(** The [<p>] that reports an attempt of prime generation. *)
Definition attemptDetail (data : option Attempt) : list Html :=
  match data with
  | Some a =>
      [Element "p" (Some "progress-detail")
         [Text ("Attempt " ++ pretty (attempt a) ++
                (if isPrime a then " ✓ Prime found!" else ""))]]
  | None => []
  end%string.

(** The [message] built by the [switch] of [updateProgress]; the empty
    message for a stage that is none of the cases. *)
Definition progressMessage (stage : string) (data : option Attempt) : list Html :=
  if String.eqb stage "Generating prime p" then
    Element "p" None
      [Element "strong" None [Text "Step 1/4:"]; Text " Generating prime p..."]
    :: attemptDetail data
  else if String.eqb stage "Generating prime q" then
    Element "p" None
      [Element "strong" None [Text "Step 2/4:"]; Text " Generating prime q..."]
    :: attemptDetail data
  else if String.eqb stage "Computing modulus n" then
    [Element "p" None
       [Element "strong" None [Text "Step 3/4:"];
        Text " Computing modulus n = p × q..."]]
  else if String.eqb stage "Computing φ(n)" then
    [Element "p" None
       [Element "strong" None [Text "Step 3/4:"];
        Text " Computing Euler's totient φ(n)..."]]
  else if String.eqb stage "Computing private exponent d" then
    [Element "p" None
       [Element "strong" None [Text "Step 4/4:"];
        Text " Computing private exponent d..."]]
  else if String.eqb stage "Complete" then
    [Element "p" None
       [Element "strong" None [Text "✓ Key generation complete!"]]]
  else [].

Definition updateProgress (stage : string) (data : option Attempt)
    (w : World) : World :=
  let w := emit (ScrollToElement "key-gen-progress") w in
  emit (SetInnerHTML "key-gen-progress" (progressMessage stage data)) w.

(** The callback given to [generateKeyPair], applied to its calls in order. *)
Definition reportProgress (reports : list RSACore.Report) (w : World) : World :=
  foldl (fun w r => updateProgress r.1 r.2 w) w reports.

Definition displayKeys (keys : KeyPair) (duration : string) (w : World) : World :=
  let w := emit (DisplayResults "key-gen-results" (KeysView keys duration)) w in
  emit SetupCopyButtons w.

Definition handleGenerateKeys (w : World) : World :=
  let keySize := parseInt (selects w "key-size"%string) in
  let w := emit (SetButtonLoading "generate-keys-btn" "Generating...") w in
  let w :=
    emit (ClearResults
            ["key-gen-results"; "encryption-results"; "decryption-results"]%string)
      w in
  let w :=
    emit (ShowLoading "key-gen-progress" "Initializing key generation...") w in
  let w :=
    let '(startTime, w) := performance_now w in
    let '(reports, outcome, rest) :=
      RSACore.generateKeyPair keySize (entropy w) in
    let w := emit (Started (GenerateKeyPair keySize)) w in
    let w := reportProgress reports w in
    let w := set_entropy rest w in
    let w := emit (Settled (GenerateKeyPair keySize)) w in
    match outcome with
    | Normal keys =>
        let '(endTime, w) := performance_now w in
        let duration :=
          Number_toFixed ((endTime - startTime) / 1000)%float 2 in
        let w := set_currentKeys (Some keys) w in
        let w := displayKeys keys duration w in
        let w := emit (EnableButton "encrypt-btn") w in
        emit (ConsoleLog "Key generation successful:") w
    | Throw message =>
        let w := emit (ConsoleError "Key generation failed:") w in
        emit (ShowError ("Key generation failed: " ++ message)) w
    end in
  let w := emit (ResetButton "generate-keys-btn" "Generate RSA Keys") w in
  emit (HideLoading "key-gen-progress") w.

(** ** Encryption *)

(** [el.value = v] for the text field with the given id. *)
Definition set_value (id : string) (v : jsstring) (w : World) : World :=
  set_fields (fun i => if String.eqb i id then v else fields w i) w.

(** [displayEncryptionResults]. It reads the public key from [currentKeys];
    the page has the [#ciphertext-input] field, which receives the
    ciphertext. *)
Definition displayEncryptionResults (originalMessage : jsstring)
    (messageInt ciphertext : Z) (duration : string) (w : World)
    : completion unit * World :=
  match currentKeys w with
  | None => (Throw "Cannot read properties of null (reading 'publicKey')", w)
  | Some keys =>
      let w :=
        emit (DisplayResults "encryption-results"
                (EncryptionView originalMessage
                   (JS.BigInt_toString messageInt)
                   (JS.BigInt_toString ciphertext) duration (publicKey keys)))
          w in
      let w := set_value "ciphertext-input" (JS.BigInt_toString ciphertext) w in
      (Normal tt, emit SetupCopyButtons w)
  end.

(** The text of the error for a message that does not fit the modulus. *)
Definition messageTooLarge (n : Z) (message : jsstring) : string :=
  let maxBytes := MathUtils_bitLength n / 8 - 1 in
  ("Message too large! Maximum message length: ~" ++ pretty maxBytes ++
   " bytes. Your message: " ++ pretty (JS.length message) ++ " bytes.")%string.

(** The [try] block of [handleEncrypt]. *)
Definition encryptMessage (keys : KeyPair) (message : jsstring) (w : World)
    : completion unit * World :=
  let '(converted, w) :=
    invoke (StringToBigInt message) (MathUtils_stringToBigInt message) w in
  match converted with
  | Throw text => (Throw text, w)
  | Normal messageInt =>
      if messageInt >=? pub_n (publicKey keys) then
        (Normal tt,
         emit (ShowError (messageTooLarge (pub_n (publicKey keys)) message)) w)
      else
        let '(startTime, w) := performance_now w in
        let '(ciphertext, w) :=
          invoke (Encrypt messageInt (publicKey keys))
            (RSACore.encrypt messageInt (publicKey keys)) w in
        let '(endTime, w) := performance_now w in
        let duration := Number_toFixed (endTime - startTime)%float 2 in
        let w := set_lastCiphertext (Some ciphertext) w in
        match
          displayEncryptionResults message messageInt ciphertext duration w
        with
        | (Throw text, w) => (Throw text, w)
        | (Normal _, w) =>
            let w := emit (EnableButton "decrypt-btn") w in
            (Normal tt, emit (ConsoleLog "Encryption successful") w)
        end
  end.

Definition handleEncrypt (w : World) : World :=
  match currentKeys w with
  | None => emit (ShowError "Please generate keys first!") w
  | Some keys =>
      let message := JS.trim (fields w "plaintext-input"%string) in
      if JS.falsy message then
        emit (ShowError "Please enter a message to encrypt") w
      else
        match encryptMessage keys message w with
        | (Normal _, w) => w
        | (Throw text, w) =>
            let w := emit (ConsoleError "Encryption failed:") w in
            emit (ShowError ("Encryption failed: " ++ text)) w
        end
  end.

(** ** Decryption *)

(** [displayDecryptionResults]. It reads the private key from
    [currentKeys]. *)
Definition displayDecryptionResults (ciphertext plaintextInt : Z)
    (plaintextStr : jsstring) (duration : string) (w : World)
    : completion unit * World :=
  match currentKeys w with
  | None => (Throw "Cannot read properties of null (reading 'privateKey')", w)
  | Some keys =>
      (Normal tt,
       emit (DisplayResults "decryption-results"
               (DecryptionView (JS.BigInt_toString ciphertext)
                  (JS.BigInt_toString plaintextInt) plaintextStr duration
                  (privateKey keys))) w)
  end.

(** The [try] block of [handleDecrypt]. *)
Definition decryptText (keys : KeyPair) (ciphertextStr : jsstring) (w : World)
    : completion unit * World :=
  match JS.BigInt ciphertextStr with
  | Throw text => (Throw text, w)
  | Normal ciphertext =>
      let '(startTime, w) := performance_now w in
      let '(plaintextInt, w) :=
        invoke (Decrypt ciphertext (privateKey keys))
          (RSACore.decrypt ciphertext (privateKey keys)) w in
      let '(endTime, w) := performance_now w in
      let duration := Number_toFixed (endTime - startTime)%float 2 in
      let '(converted, w) :=
        invoke (BigIntToString plaintextInt)
          (MathUtils_bigIntToString plaintextInt) w in
      match converted with
      | Throw text => (Throw text, w)
      | Normal plaintextStr =>
          match
            displayDecryptionResults ciphertext plaintextInt plaintextStr
              duration w
          with
          | (Throw text, w) => (Throw text, w)
          | (Normal _, w) =>
              (Normal tt, emit (ConsoleLog "Decryption successful") w)
          end
      end
  end.

Definition handleDecrypt (w : World) : World :=
  match currentKeys w with
  | None => emit (ShowError "Please generate keys first!") w
  | Some keys =>
      let ciphertextStr := JS.trim (fields w "ciphertext-input"%string) in
      if JS.falsy ciphertextStr then
        emit (ShowError "Please enter ciphertext to decrypt") w
      else
        match decryptText keys ciphertextStr w with
        | (Normal _, w) => w
        | (Throw text, w) =>
            let w := emit (ConsoleError "Decryption failed:") w in
            emit (ShowError ("Decryption failed: " ++ text)) w
        end
  end.

End RSAUI.
End RSAUI.

(* ===================================================================== *)
(** * The handlers of the site, and what a run of one performs *)
(* ===================================================================== *)

Inductive Handler : Type :=
| ComputeHashClick
| AvalancheClick
| BirthdayClick
| GenerateKeysClick
| EncryptClick
| DecryptClick
| ThemeInit
| ThemeToggleClick.

Section Runs.
Context `{Collaborators}.

Definition run (h : Handler) (w : World) : World :=
  match h with
  | ComputeHashClick => HashUI.handleComputeHash w
  | AvalancheClick => HashUI.handleAvalanche w
  | BirthdayClick => HashUI.handleBirthdayCalculator w
  | GenerateKeysClick => RSAUI.handleGenerateKeys w
  | EncryptClick => RSAUI.handleEncrypt w
  | DecryptClick => RSAUI.handleDecrypt w
  | ThemeInit => Theme.initTheme w
  | ThemeToggleClick => Theme.toggleTheme w
  end.

(** The handlers of the hash and RSA demos. *)
Definition demo_handler (h : Handler) : bool :=
  match h with
  | ThemeInit | ThemeToggleClick => false
  | _ => true
  end.

(** The effects performed so far, in the order they happened. *)
Definition history (w : World) : list Event := rev (effects w).

(** The effects of one run, in the order they happen. *)
Definition performed (h : Handler) (w : World) : list Event :=
  history (run h (set_effects [] w)).

(** The module variables of the two controllers. *)
Definition stored (w : World)
    : gmap string HashEntry * jsstring * option KeyPair * option Z :=
  (currentHashes w, lastInput w, currentKeys w, lastCiphertext w).

(** The calls into the computing modules among some effects. *)
Inductive Phase : Type := Begins | Ends | Whole.

Definition computation_of (e : Event) : option (Phase * Computation) :=
  match e with
  | Started c => Some (Begins, c)
  | Settled c => Some (Ends, c)
  | Called c => Some (Whole, c)
  | _ => None
  end.

Definition computations (l : list Event) : list (Phase * Computation) :=
  omap computation_of l.


(** The messages written into the progress element among some effects. *)
Definition progress_of (e : Event) : option (list Html) :=
  match e with
  | SetInnerHTML id html =>
      if String.eqb id "key-gen-progress" then Some html else None
  | _ => None
  end.

Definition progress_shown (l : list Event) : list (list Html) :=
  omap progress_of l.

(** What a run is given: the state of the form controls, the clock and the
    random candidates. *)
Definition same_inputs (w1 w2 : World) : Prop :=
  fields w1 = fields w2 /\ selects w1 = selects w2 /\
  checkedAlgorithms w1 = checkedAlgorithms w2 /\
  clock w1 = clock w2 /\ entropy w1 = entropy w2.

(** The effects by which a run tells the user how it ended: results drawn,
    or an error shown. *)
Definition tells_outcome (e : Event) : bool :=
  match e with
  | DisplayResults _ _ | ShowError _ => true
  | _ => false
  end.

(** The handlers that read the key pair kept in [currentKeys]. *)
Definition reads_keys (h : Handler) : bool :=
  match h with
  | EncryptClick | DecryptClick => true
  | _ => false
  end.

(** Two pages a run cannot tell apart: the same inputs, the same effects so
    far after the effects [base] the first page starts from and, when
    [keys] is set, the same key pair. *)
Definition alike (base : list Event) (keys : bool) (w1 w2 : World) : Prop :=
  fields w1 = fields w2 /\ selects w1 = selects w2 /\
  checkedAlgorithms w1 = checkedAlgorithms w2 /\
  clock w1 = clock w2 /\ entropy w1 = entropy w2 /\
  effects w1 = effects w2 ++ base /\
  (keys = true -> currentKeys w1 = currentKeys w2).


End Runs.

(* ===================================================================== *)
(** * The avalanche quality, as a table *)
(* ===================================================================== *)

Module QualityTable.

(** The label read off the table: Excellent in [45, 55], Good in [40, 60]
    outside [45, 55], Poor elsewhere. *)
Definition in_range (lo hi p : float) : bool := ((lo <=? p) && (p <=? hi))%float.

Definition label (p : float) : string :=
  if in_range 45 55 p then "Excellent"
  else if in_range 40 60 p && negb (in_range 45 55 p) then "Good"
  else "Poor".

End QualityTable.

(* ===================================================================== *)
(** * The stages of key generation, as a table *)
(* ===================================================================== *)

Module StageTable.

(** The stages in the order they are to be reported: any number of attempts
    at [p], then at [q], then the four single stages. *)
Definition stages (attempts_p attempts_q : nat) : list string :=
  replicate attempts_p "Generating prime p"%string ++
  replicate attempts_q "Generating prime q"%string ++
  ["Computing modulus n"; "Computing φ(n)"; "Computing private exponent d";
   "Complete"]%string.

(** The step each stage is reported as. *)
Definition step (stage : string) : option string :=
  if String.eqb stage "Generating prime p" then Some "Step 1/4:"
  else if String.eqb stage "Generating prime q" then Some "Step 2/4:"
  else if String.eqb stage "Computing modulus n" then Some "Step 3/4:"
  else if String.eqb stage "Computing φ(n)" then Some "Step 3/4:"
  else if String.eqb stage "Computing private exponent d" then Some "Step 4/4:"
  else if String.eqb stage "Complete" then Some "✓ Key generation complete!"
  else None.

(** The text in bold at the head of a progress message. *)
Definition headline (message : list Html) : option string :=
  match message with
  | Element _ _ (Element _ _ [Text text] :: _) :: _ => Some text
  | _ => None
  end.

End StageTable.

(** The number of the sixteen bits in which two code units differ. *)
Definition differing_bits (a b : Z) : nat :=
  List.length (filter (fun k => Z.testbit a k ≠ Z.testbit b k) (seqZ 0 16)).

(* ===================================================================== *)
(** * Kinds of effects *)
(* ===================================================================== *)

Section Kinds.
Context `{Collaborators}.

(** The effects on the loading indicators and on the state of the button
    that starts key generation. *)
Definition loading_event (e : Event) : bool :=
  match e with
  | ShowLoading _ _ | HideLoading _ | SetButtonLoading _ _ | ResetButton _ _ =>
      true
  | _ => false
  end.

(** Results being drawn. *)
Definition draws (e : Event) : bool :=
  match e with
  | DisplayResults _ _ => true
  | _ => false
  end.

(** A button being enabled. *)
Definition enables (e : Event) : bool :=
  match e with
  | EnableButton _ => true
  | _ => false
  end.

(** A call into a computing module, of any phase. *)
Definition computes (e : Event) : bool :=
  match computation_of e with
  | Some _ => true
  | None => false
  end.

(** The effects of [updateProgress] for the calls of the progress callback,
    in order. *)
Definition progress_events (reports : list RSACore.Report) : list Event :=
  flat_map
    (fun r =>
       [ScrollToElement "key-gen-progress";
        SetInnerHTML "key-gen-progress" (RSAUI.progressMessage r.1 r.2)])
    reports.

(** A code unit that no integer literal has: no white space, no digit of
    any radix up to 16, no sign, and none of the letters [x], [o] (either
    case) that announce a radix ([b] is a digit of radix 16). *)
Definition foreign_unit (u : Z) : bool :=
  negb (JS.is_white_space u)
  && bool_decide (JS.digit_value 16 u = None)
  && negb ((u =? 43) || (u =? 45) || (u =? 120) || (u =? 88) || (u =? 111)
           || (u =? 79)).

(** A text made of white space only, the empty text included. *)
Definition white_space_only (s : jsstring) : Prop :=
  Forall (fun u => JS.is_white_space u = true) s.

End Kinds.

(* ===================================================================== *)
(** * A sample page *)
(* ===================================================================== *)

Module Sample.

(** A string codec in base 256, most significant unit first, under a
    leading 1. *)
Definition encode (s : jsstring) : Z :=
  foldl (fun acc u => acc * 256 + u) 1 s.

Fixpoint decode_steps (steps : nat) (z : Z) (acc : jsstring) : jsstring :=
  match steps with
  | O => acc
  | S steps' =>
      if z <=? 1 then acc
      else decode_steps steps' (z / 256) (z mod 256 :: acc)
  end.

Definition decode (z : Z) : jsstring :=
  decode_steps (Z.to_nat (Z.log2 z)) z [].

#[export] Instance collaborators : Collaborators := {|
  Avalanche := float;
  HashCore_computeHash input algo :=
    if String.eqb algo "MD5" then Throw "CryptoJS is not loaded"
    else Normal (algo ++ ":" ++ pretty (encode input))%string;
  HashUtils_computeAvalanche h1 h2 := Normal 50%float;
  avalanche_percentage a := a;
  HashUtils_attemptsFor50PercentCollision bits := "2^128"%string;
  HashUtils_birthdayAttackProbability bits attempts := 0%float;
  HashUtils_formatLargeNumber x := "many"%string;
  Config_getAlgorithmInfo algo :=
    if String.eqb algo "SHA-256" then
      Some {| info_name := "SHA-256"; info_outputBits := 256%float |}
    else None;
  MathUtils_stringToBigInt s := Normal (encode s);
  MathUtils_bigIntToString z := Normal (decode z);
  MathUtils_bitLength n := Z.log2 n + 1;
  Math_pow a b := a;
  Number_toString x := "x"%string;
  Number_toFixed x digits := "0.00"%string;
  Number_toExponential x digits := "0.00e+0"%string;
  parseInt s := 16
|}.

(** A freshly loaded page: empty fields, nothing stored. *)
Definition page : World := {|
  fields := fun _ => [];
  selects := fun _ => "SHA-256"%string;
  checkedAlgorithms := [];
  dataTheme := None;
  themeToggle := None;
  prefersDark := false;
  localStorage := ∅;
  currentHashes := ∅;
  lastInput := [];
  currentKeys := None;
  lastCiphertext := None;
  clock := fun _ => 0%float;
  entropy := [];
  effects := []
|}.

(** The page after the user typed "hi" as text to hash and checked two
    algorithms. *)
Definition hash_page : World := {|
  fields := fun id => if String.eqb id "hash-input" then [104; 105] else [];
  selects := fun _ => "SHA-256"%string;
  checkedAlgorithms := ["SHA-256"; "SHA-1"]%string;
  dataTheme := None;
  themeToggle := None;
  prefersDark := false;
  localStorage := ∅;
  currentHashes := ∅;
  lastInput := [];
  currentKeys := None;
  lastCiphertext := None;
  clock := fun _ => 0%float;
  entropy := [];
  effects := []
|}.

(** The page when the random generator is about to give 250, 251, 251,
    257 and 3. *)
Definition keygen_page : World := {|
  fields := fun _ => [];
  selects := fun _ => "16"%string;
  checkedAlgorithms := [];
  dataTheme := None;
  themeToggle := None;
  prefersDark := false;
  localStorage := ∅;
  currentHashes := ∅;
  lastInput := [];
  currentKeys := None;
  lastCiphertext := None;
  clock := fun _ => 0%float;
  entropy := [250; 251; 251; 257; 3];
  effects := []
|}.

(** The key pair of the primes 251 and 257. *)
Definition keys : KeyPair := {|
  publicKey := {| pub_e := 65537; pub_n := 64507 |};
  privateKey := {| priv_d := 41473; priv_n := 64507 |};
  key_p := 251; key_q := 257; key_phi := 64000
|}.

(** The page after the user typed "h" as plaintext and the keys were
    generated. *)
Definition page_with_keys : World :=
  set_currentKeys (Some keys)
    (set_fields (fun id => if String.eqb id "plaintext-input"
                           then [104] else []) page).

(** A page with the given form controls and random candidates, nothing
    stored and no effect yet. *)
Definition page_of (values : string -> jsstring) (chosen : string -> string)
    (checked : list string) (candidates : list Z) : World := {|
  fields := values;
  selects := chosen;
  checkedAlgorithms := checked;
  dataTheme := None;
  themeToggle := None;
  prefersDark := false;
  localStorage := ∅;
  currentHashes := ∅;
  lastInput := [];
  currentKeys := None;
  lastCiphertext := None;
  clock := fun _ => 0%float;
  entropy := candidates;
  effects := []
|}.

(** The text "hi" in the field with the given id, the other fields empty. *)
Definition hi_in (id : string) : string -> jsstring :=
  fun i => if String.eqb i id then [104; 105] else [].

End Sample.

(* ===================================================================== *)
(** * Properties of the dark mode toggle *)
(* ===================================================================== *)

Section ThemeFacts.
Context `{Collaborators}.

Lemma dataTheme_applyTheme (theme : string) (w : World) :
  dataTheme (Theme.applyTheme theme w) = Some theme.
Proof. unfold Theme.applyTheme. simpl. destruct (themeToggle w); reflexivity. Qed.

Lemma localStorage_applyTheme (theme : string) (w : World) :
  localStorage (Theme.applyTheme theme w)
  = <["theme"%string := theme]> (localStorage w).
Proof. unfold Theme.applyTheme. simpl. destruct (themeToggle w); reflexivity. Qed.

Lemma dataTheme_toggleTheme (w : World) :
  dataTheme (Theme.toggleTheme w)
  = Some (if String.eqb (default "light"%string (Theme.truthy (dataTheme w)))
               "dark"
          then "light"%string else "dark"%string).
Proof. unfold Theme.toggleTheme. apply dataTheme_applyTheme. Qed.

(** C10. One call of [toggleTheme] leaves [data-theme] at 'dark' or
    'light': at 'light' when it was 'dark', at 'dark' otherwise (an absent
    attribute counts as 'light'); and from 'dark' or from 'light' two calls
    in a row give back the value the attribute had. *)
Theorem toggleTheme_involution (w : World) :
  (dataTheme (Theme.toggleTheme w) = Some "dark"%string \/
   dataTheme (Theme.toggleTheme w) = Some "light"%string) /\
  (dataTheme w = Some "dark"%string ->
   dataTheme (Theme.toggleTheme w) = Some "light"%string) /\
  (dataTheme w = Some "light"%string \/ dataTheme w = None ->
   dataTheme (Theme.toggleTheme w) = Some "dark"%string) /\
  (dataTheme w = Some "dark"%string \/ dataTheme w = Some "light"%string ->
   dataTheme (Theme.toggleTheme (Theme.toggleTheme w)) = dataTheme w).
Proof.
  repeat split.
  - rewrite dataTheme_toggleTheme.
    destruct (String.eqb _ _); [right | left]; reflexivity.
  - intros E. rewrite dataTheme_toggleTheme, E. reflexivity.
  - intros [E | E]; rewrite dataTheme_toggleTheme, E; reflexivity.
  - intros [E | E]; rewrite !dataTheme_toggleTheme, E; reflexivity.
Qed.

End ThemeFacts.

(** On the sample page: from 'dark' one click gives 'light' and two give
    'dark' again; from no attribute one click gives 'dark'. *)
Lemma toggleTheme_involution_witness :
  let dark := set_dataTheme (Some "dark"%string) Sample.page in
  dataTheme (Theme.toggleTheme dark) = Some "light"%string /\
  dataTheme (Theme.toggleTheme Sample.page) = Some "dark"%string /\
  dataTheme (Theme.toggleTheme (Theme.toggleTheme dark)) = Some "dark"%string.
Proof.
  intros dark. split; [|split].
  - apply (toggleTheme_involution dark). reflexivity.
  - apply (toggleTheme_involution Sample.page). right. reflexivity.
  - apply (toggleTheme_involution dark). left. reflexivity.
Defined.

(* ===================================================================== *)
(** * What the handlers leave alone: [localStorage] *)
(* ===================================================================== *)

Section StorageFrame.
Context `{Collaborators}.

Lemma localStorage_computeSelected input algos results w :
  localStorage (HashUI.computeSelected input algos results w).2
  = localStorage w.
Proof.
  revert results w. induction algos as [|algo rest IH]; intros results w.
  - reflexivity.
  - simpl. destruct (HashCore_computeHash input algo); simpl.
    + rewrite IH. reflexivity.
    + reflexivity.
Qed.

Lemma localStorage_handleComputeHash w :
  localStorage (HashUI.handleComputeHash w) = localStorage w.
Proof.
  unfold HashUI.handleComputeHash, HashUI.displayHashResults.
  destruct (JS.falsy _); [reflexivity|].
  destruct (_ =? 0); [reflexivity|].
  simpl.
  match goal with
  | |- context [HashUI.computeSelected ?i ?a ?r ?w0] =>
      pose proof (localStorage_computeSelected i a r w0) as E;
      destruct (HashUI.computeSelected i a r w0) as [[results|message] w1]
  end; simpl in *; exact E.
Qed.

Lemma localStorage_avalancheTest baseInput algorithm w :
  localStorage (HashUI.avalancheTest baseInput algorithm w).2 = localStorage w.
Proof.
  unfold HashUI.avalancheTest, HashUI.displayAvalancheResults. simpl.
  repeat
    match goal with
    | |- context [match ?x with _ => _ end] => destruct x; simpl
    end; reflexivity.
Qed.

Lemma localStorage_handleAvalanche w :
  localStorage (HashUI.handleAvalanche w) = localStorage w.
Proof.
  unfold HashUI.handleAvalanche.
  destruct (JS.falsy _); [reflexivity|]. simpl.
  match goal with
  | |- context [HashUI.avalancheTest ?i ?a ?w0] =>
      pose proof (localStorage_avalancheTest i a w0) as E;
      destruct (HashUI.avalancheTest i a w0) as [[u|message] w1]
  end; simpl in *; exact E.
Qed.

Lemma localStorage_birthdayRows hashBits items w :
  localStorage (HashUI.birthdayRows hashBits items w).2 = localStorage w.
Proof.
  revert w. induction items as [|[attempts label] rest IH]; intros w.
  - reflexivity.
  - simpl. unfold HashUI.birthdayRow. simpl.
    match goal with
    | |- context [HashUI.birthdayRows ?b ?r ?w0] =>
        specialize (IH w0); destruct (HashUI.birthdayRows b r w0)
    end. simpl in *. exact IH.
Qed.

Lemma localStorage_handleBirthdayCalculator w :
  localStorage (HashUI.handleBirthdayCalculator w) = localStorage w.
Proof.
  unfold HashUI.handleBirthdayCalculator, HashUI.displayBirthdayResults.
  destruct (Config_getAlgorithmInfo _); reflexivity.
Qed.

Lemma localStorage_reportProgress reports w :
  localStorage (RSAUI.reportProgress reports w) = localStorage w.
Proof.
  unfold RSAUI.reportProgress. revert w.
  induction reports as [|r rest IH]; intros w; simpl.
  - reflexivity.
  - rewrite IH. reflexivity.
Qed.

Lemma localStorage_handleGenerateKeys w :
  localStorage (RSAUI.handleGenerateKeys w) = localStorage w.
Proof.
  unfold RSAUI.handleGenerateKeys, RSAUI.displayKeys. simpl.
  destruct (RSACore.generateKeyPair _ _) as [[reports [keys|message]] rest];
    simpl; rewrite localStorage_reportProgress; reflexivity.
Qed.

Lemma localStorage_handleEncrypt w :
  localStorage (RSAUI.handleEncrypt w) = localStorage w.
Proof.
  unfold RSAUI.handleEncrypt, RSAUI.encryptMessage,
    RSAUI.displayEncryptionResults.
  destruct (currentKeys w) as [keys|] eqn:K; [|reflexivity].
  destruct (JS.falsy _); [reflexivity|]. simpl.
  destruct (MathUtils_stringToBigInt _); simpl; [|reflexivity].
  destruct (_ >=? _); simpl; [reflexivity|].
  rewrite K. reflexivity.
Qed.

Lemma localStorage_handleDecrypt w :
  localStorage (RSAUI.handleDecrypt w) = localStorage w.
Proof.
  unfold RSAUI.handleDecrypt, RSAUI.decryptText,
    RSAUI.displayDecryptionResults.
  destruct (currentKeys w) as [keys|] eqn:K; [|reflexivity].
  destruct (JS.falsy _); [reflexivity|].
  destruct (JS.BigInt _); simpl; [|reflexivity].
  destruct (MathUtils_bigIntToString _); simpl; [|reflexivity].
  rewrite K. reflexivity.
Qed.

Lemma storage_initTheme w :
  localStorage (Theme.initTheme w)
  = <["theme"%string := Theme.getThemePreference w]> (localStorage w) /\
  dataTheme (Theme.initTheme w) = Some (Theme.getThemePreference w).
Proof.
  unfold Theme.initTheme.
  pose proof (localStorage_applyTheme (Theme.getThemePreference w) w) as L.
  pose proof (dataTheme_applyTheme (Theme.getThemePreference w) w) as D.
  destruct (themeToggle (Theme.applyTheme _ w)); simpl; auto.
Qed.

(** C2, as the code has it. The handlers of the hash and RSA demos leave
    [localStorage] as it was. Theme initialization and the theme toggle store
    the theme they apply under the key 'theme', and leave every other key as
    it was. *)
Theorem localStorage_frame (h : Handler) (w : World) :
  (demo_handler h = true -> localStorage (run h w) = localStorage w) /\
  (demo_handler h = false ->
   exists theme : string,
     dataTheme (run h w) = Some theme /\
     localStorage (run h w) = <["theme"%string := theme]> (localStorage w) /\
     forall key : string, key <> "theme"%string ->
       localStorage (run h w) !! key = localStorage w !! key).
Proof.
  split; intros D.
  - destruct h; try discriminate D; unfold run.
    + apply localStorage_handleComputeHash.
    + apply localStorage_handleAvalanche.
    + apply localStorage_handleBirthdayCalculator.
    + apply localStorage_handleGenerateKeys.
    + apply localStorage_handleEncrypt.
    + apply localStorage_handleDecrypt.
  - destruct h; try discriminate D; unfold run.
    + destruct (storage_initTheme w) as [L T].
      exists (Theme.getThemePreference w). rewrite L, T.
      repeat split. intros key N. apply lookup_insert_ne. congruence.
    + eexists. rewrite dataTheme_toggleTheme. split; [reflexivity|].
      unfold Theme.toggleTheme. rewrite localStorage_applyTheme.
      split; [reflexivity|]. intros key N. apply lookup_insert_ne. congruence.
Qed.

End StorageFrame.

(** C2 fails on the sample page: a click on the theme toggle changes
    [localStorage]. *)
Lemma toggleTheme_writes_localStorage :
  localStorage (run ThemeToggleClick Sample.page) <> localStorage Sample.page.
Proof.
  intros E.
  apply (f_equal (fun m : gmap string string => m !! "theme"%string)) in E.
  vm_compute in E. discriminate.
Qed.

(** On the sample page: a click on "compute hash" leaves [localStorage]
    empty, a click on the theme toggle stores 'dark'. *)
Lemma localStorage_frame_witness :
  localStorage (run ComputeHashClick Sample.page) = localStorage Sample.page /\
  exists theme : string,
    dataTheme (run ThemeToggleClick Sample.page) = Some theme /\
    localStorage (run ThemeToggleClick Sample.page)
    = <["theme"%string := theme]> (localStorage Sample.page) /\
    forall key : string, key <> "theme"%string ->
      localStorage (run ThemeToggleClick Sample.page) !! key
      = localStorage Sample.page !! key.
Proof.
  split.
  - apply (localStorage_frame ComputeHashClick Sample.page). reflexivity.
  - apply (localStorage_frame ThemeToggleClick Sample.page). reflexivity.
Defined.

(* ===================================================================== *)
(** * The avalanche test *)
(* ===================================================================== *)

Section JSFacts.

Lemma ToInt32_code_unit (u : Z) : JS.code_unit u -> JS.ToInt32 (Some u) = u.
Proof.
  unfold JS.code_unit, JS.ToInt32. intros R.
  rewrite Z.mod_small by lia. lia.
Qed.

Lemma lxor_1_even (a : Z) : Z.even a = true -> Z.lxor a 1 = a + 1.
Proof.
  intros E. symmetry. apply Z.add_nocarry_lxor.
  apply Z.bits_inj'. intros k Hk.
  rewrite Z.land_spec, Z.bits_0.
  destruct (Z.eq_dec k 0) as [->|N].
  - rewrite Z.bit0_odd, <- Z.negb_even, E. reflexivity.
  - replace 1 with (2 ^ 0) by reflexivity.
    rewrite Z.pow2_bits_eqb by lia.
    destruct (Z.eqb_spec 0 k); [lia|]. apply andb_false_r.
Qed.

Lemma lxor_1_odd (a : Z) : Z.even a = false -> Z.lxor a 1 = a - 1.
Proof.
  intros O.
  assert (E : Z.even (a - 1) = true).
  { rewrite Z.even_sub, O. reflexivity. }
  apply lxor_1_even in E.
  replace (a - 1 + 1) with a in E by lia.
  rewrite <- E at 1. rewrite Z.lxor_assoc, Z.lxor_nilpotent, Z.lxor_0_r.
  reflexivity.
Qed.

Lemma lxor_1_code_unit (u : Z) : JS.code_unit u -> JS.code_unit (Z.lxor u 1).
Proof.
  unfold JS.code_unit. intros R.
  destruct (Z.even u) eqn:E.
  - rewrite lxor_1_even by assumption.
    assert (u <> 65535).
    { intros ->. discriminate E. }
    lia.
  - rewrite lxor_1_odd by assumption.
    assert (u <> 0).
    { intros ->. discriminate E. }
    lia.
Qed.

Lemma differing_bits_lxor_1 (u : Z) : differing_bits u (Z.lxor u 1) = 1%nat.
Proof.
  unfold differing_bits.
  rewrite (list_filter_iff _ (fun k => k = 0)).
  - reflexivity.
  - intros k. rewrite Z.lxor_spec.
    replace 1 with (2 ^ 0) by reflexivity.
    destruct (Z.eq_dec k 0) as [->|N].
    + rewrite Z.pow2_bits_true by lia.
      destruct (Z.testbit u 0); simpl; split; intros; congruence.
    + destruct (Z_lt_le_dec k 0).
      * rewrite !Z.testbit_neg_r by lia. simpl. split; congruence.
      * rewrite Z.pow2_bits_false by lia. rewrite xorb_false_r.
        split; congruence.
Qed.

Lemma slice_drop_last (s : jsstring) (u : Z) : JS.slice (s ++ [u]) 0 (-1) = s.
Proof.
  unfold JS.slice, JS.relative_index, JS.length. simpl.
  rewrite length_app. simpl.
  rewrite Z.min_l by lia.
  replace (Z.to_nat (Z.max (Z.max (Z.of_nat (List.length s + 1) + -1) 0 - 0) 0))
    with (List.length s) by lia.
  simpl. apply take_app_length.
Qed.

Lemma charCodeAt_last (s : jsstring) (u : Z) :
  JS.charCodeAt (s ++ [u]) (JS.length (s ++ [u]) - 1) = Some u.
Proof.
  unfold JS.charCodeAt, JS.length. rewrite length_app. simpl.
  destruct (Z.ltb_spec (Z.of_nat (List.length s + 1) - 1) 0); [lia|].
  replace (Z.to_nat (Z.of_nat (List.length s + 1) - 1)) with (List.length s)
    by lia.
  apply list_lookup_middle. reflexivity.
Qed.

Lemma charCodeAt_app_l (s t : jsstring) (i : Z) :
  0 <= i < JS.length s -> JS.charCodeAt (s ++ t) i = JS.charCodeAt s i.
Proof.
  unfold JS.charCodeAt, JS.length. intros R.
  destruct (Z.ltb_spec i 0); [lia|].
  apply lookup_app_l. lia.
Qed.

End JSFacts.

Section Avalanche.
Context `{Collaborators}.

(** The modified input, with the base input split before its last unit. *)
Lemma modifiedInput_snoc (s : jsstring) (u : Z) :
  JS.code_unit u ->
  HashUI.modifiedInput (s ++ [u])
  = s ++ [if decide (u = 126) then 124 else Z.lxor u 1].
Proof.
  intros R. unfold HashUI.modifiedInput.
  rewrite slice_drop_last. f_equal.
  unfold JS.charAt. rewrite charCodeAt_last.
  change (JS.literal "~") with [126].
  unfold JS.strict_eq, JS.fromCharCode.
  destruct (decide (u = 126)) as [->|N].
  - reflexivity.
  - rewrite bool_decide_eq_false_2 by (intros [= E]; contradiction).
    unfold JS.bitxor. rewrite ToInt32_code_unit by assumption.
    change (JS.ToInt32 (Some 1)) with 1.
    pose proof (lxor_1_code_unit u R) as R'. unfold JS.code_unit in R'.
    rewrite Z.mod_small by lia. reflexivity.
Qed.

(** C8. For a non-empty base input, the modified input of the avalanche
    test has the length of the base input, the same code unit at every index
    but the last, and at the last index a code unit that differs from the one
    of the base input in exactly one bit and is not 127 (DEL). *)
Theorem modifiedInput_one_bit (baseInput : jsstring) :
  JS.well_formed baseInput ->
  baseInput <> [] ->
  JS.length (HashUI.modifiedInput baseInput) = JS.length baseInput /\
  (forall i : Z, 0 <= i < JS.length baseInput - 1 ->
     JS.charCodeAt (HashUI.modifiedInput baseInput) i
     = JS.charCodeAt baseInput i) /\
  exists u u' : Z,
    JS.charCodeAt baseInput (JS.length baseInput - 1) = Some u /\
    JS.charCodeAt (HashUI.modifiedInput baseInput) (JS.length baseInput - 1)
    = Some u' /\
    differing_bits u u' = 1%nat /\
    u' <> 127.
Proof.
  intros WF NE.
  destruct (exists_last NE) as (s & u & ->).
  unfold JS.well_formed in WF.
  rewrite Forall_app, Forall_singleton in WF. destruct WF as [_ WF].
  rewrite modifiedInput_snoc by assumption.
  set (u' := if decide (u = 126) then 124 else Z.lxor u 1).
  assert (L : JS.length (s ++ [u']) = JS.length (s ++ [u])).
  { unfold JS.length. rewrite !length_app. reflexivity. }
  split; [exact L|]. split.
  - intros i R.
    assert (JS.length (s ++ [u]) = JS.length s + 1).
    { unfold JS.length. rewrite length_app. simpl. lia. }
    rewrite !charCodeAt_app_l by lia. reflexivity.
  - exists u, u'. split; [apply charCodeAt_last|].
    split; [rewrite <- L; apply charCodeAt_last|].
    subst u'. destruct (decide (u = 126)) as [->|N].
    + split; [reflexivity|discriminate].
    + split; [apply differing_bits_lxor_1|].
      intros E. apply N.
      rewrite <- (Z.lxor_0_r u), <- (Z.lxor_nilpotent 1), <- Z.lxor_assoc, E.
      reflexivity.
Qed.

End Avalanche.

(** The base input "h~" becomes "h|", and "hi" becomes "hh". *)
Lemma modifiedInput_one_bit_witness :
  JS.length (HashUI.modifiedInput (JS.literal "h~")) = 2 /\
  HashUI.modifiedInput (JS.literal "h~") = JS.literal "h|" /\
  HashUI.modifiedInput (JS.literal "hi") = JS.literal "hh".
Proof.
  split; [|split; reflexivity].
  refine (proj1 (modifiedInput_one_bit (JS.literal "h~") _ _)).
  - repeat constructor; vm_compute; discriminate.
  - discriminate.
Defined.

Section Quality.

(** C9. The quality label is a function of the percentage alone and
    follows the table: 'Excellent' exactly when the percentage is in
    [45, 55], 'Good' exactly when it is in [40, 60] and not in [45, 55],
    'Poor' exactly in every other case (a percentage that is not a number
    included). *)
Theorem avalancheQuality_table (percentage : float) :
  let quality := (HashUI.avalancheQuality percentage).1 in
  let excellent := QualityTable.in_range 45 55 percentage in
  let good :=
    QualityTable.in_range 40 60 percentage
    && negb (QualityTable.in_range 45 55 percentage) in
  quality = QualityTable.label percentage /\
  (quality = "Excellent"%string <-> excellent = true) /\
  (quality = "Good"%string <-> good = true) /\
  (quality = "Poor"%string <-> excellent = false /\ good = false).
Proof.
  unfold HashUI.avalancheQuality, QualityTable.label, QualityTable.in_range.
  destruct ((45 <=? percentage) && (percentage <=? 55))%float;
    destruct ((40 <=? percentage) && (percentage <=? 60))%float;
    simpl; repeat split; intros; try discriminate; try reflexivity;
    match goal with
    | E : _ /\ _ |- _ => destruct E; discriminate
    end.
Qed.

End Quality.

(** The labels at 50, 45, 55, 42.5, 60, 39.99 and at a value that is not a
    number. *)
Example avalancheQuality_samples :
  map HashUI.avalancheQuality
    [50; 45; 55; 42.5; 60; 39.99; nan]%float
  = [("Excellent", "green"); ("Excellent", "green"); ("Excellent", "green");
     ("Good", "blue"); ("Good", "blue"); ("Poor", "red"); ("Poor", "red")]%string.
Proof. vm_compute. reflexivity. Qed.

(* ===================================================================== *)
(** * Input validation *)
(* ===================================================================== *)

Section Validation.
Context `{Collaborators}.

Lemma emit_keeps (e : Event) (w : World) :
  effects (emit e w) = e :: effects w /\ stored (emit e w) = stored w.
Proof. split; reflexivity. Qed.



(** The messages of the refusals, handler by handler. *)
Lemma rejected_messages (w : World) :
  (fields w "hash-input"%string = [] ->
   run ComputeHashClick w = emit (ShowError "Please enter text to hash") w) /\
  (fields w "hash-input"%string <> [] -> checkedAlgorithms w = [] ->
   run ComputeHashClick w
   = emit (ShowError "Please select at least one hash algorithm") w) /\
  (fields w "avalanche-input"%string = [] ->
   run AvalancheClick w
   = emit (ShowError "Please enter base text for avalanche test") w) /\
  (Config_getAlgorithmInfo (selects w "birthday-algorithm"%string) = None ->
   run BirthdayClick w = emit (ShowError "Invalid algorithm selected") w) /\
  (currentKeys w = None ->
   run EncryptClick w = emit (ShowError "Please generate keys first!") w /\
   run DecryptClick w = emit (ShowError "Please generate keys first!") w) /\
  (currentKeys w <> None ->
   JS.trim (fields w "plaintext-input"%string) = [] ->
   run EncryptClick w = emit (ShowError "Please enter a message to encrypt") w) /\
  (currentKeys w <> None ->
   JS.trim (fields w "ciphertext-input"%string) = [] ->
   run DecryptClick w = emit (ShowError "Please enter ciphertext to decrypt") w).
Proof.
  simpl. unfold HashUI.handleComputeHash, HashUI.handleAvalanche,
    HashUI.handleBirthdayCalculator, RSAUI.handleEncrypt, RSAUI.handleDecrypt,
    HashUI.getSelectedAlgorithms.
  repeat apply conj.
  - intros ->. reflexivity.
  - intros N ->. destruct (fields w "hash-input"%string); [contradiction|].
    reflexivity.
  - intros ->. reflexivity.
  - intros ->. reflexivity.
  - intros ->. split; reflexivity.
  - intros N ->. destruct (currentKeys w); [reflexivity|contradiction].
  - intros N ->. destruct (currentKeys w); [reflexivity|contradiction].
Qed.

(** ** The size check of encryption *)

Lemma performed_handleEncrypt_cases (w : World) :
  let message := JS.trim (fields w "plaintext-input"%string) in
  match currentKeys w with
  | None => performed EncryptClick w = [ShowError "Please generate keys first!"]
  | Some keys =>
      if JS.falsy message then
        performed EncryptClick w = [ShowError "Please enter a message to encrypt"]
      else
        match MathUtils_stringToBigInt message with
        | Throw text =>
            performed EncryptClick w
            = [Called (StringToBigInt message);
               ConsoleError "Encryption failed:";
               ShowError ("Encryption failed: " ++ text)]
        | Normal messageInt =>
            if messageInt >=? pub_n (publicKey keys) then
              performed EncryptClick w
              = [Called (StringToBigInt message);
                 ShowError (RSAUI.messageTooLarge (pub_n (publicKey keys))
                              message)]
            else
              exists duration : string,
                performed EncryptClick w
                = [Called (StringToBigInt message);
                   Called (Encrypt messageInt (publicKey keys));
                   DisplayResults "encryption-results"
                     (EncryptionView message (JS.BigInt_toString messageInt)
                        (JS.BigInt_toString
                           (RSACore.encrypt messageInt (publicKey keys)))
                        duration (publicKey keys));
                   SetupCopyButtons; EnableButton "decrypt-btn";
                   ConsoleLog "Encryption successful"]
        end
  end.
Proof.
  unfold performed, run, RSAUI.handleEncrypt, RSAUI.encryptMessage,
    RSAUI.displayEncryptionResults. simpl.
  destruct (currentKeys w) as [keys|]; [|reflexivity].
  destruct (JS.falsy _); [reflexivity|]. simpl.
  destruct (MathUtils_stringToBigInt _) as [messageInt|text]; [|reflexivity].
  simpl. destruct (messageInt >=? _); [reflexivity|].
  simpl. eexists. reflexivity.
Qed.

(** C5. [RSACore.encrypt] is called by [handleEncrypt] only on a message
    integer below the modulus [n] of the public key. When the message integer
    is [n] or more, [handleEncrypt] shows the error that gives
    floor(bitLength(n) / 8) - 1 bytes as the maximum message length and
    returns: it makes no call of [RSACore.encrypt] and [lastCiphertext]
    keeps its value. *)
Theorem encrypt_only_below_modulus (w : World) :
  (forall (messageInt : Z) (key : PublicKey),
     In (Called (Encrypt messageInt key)) (performed EncryptClick w) ->
     messageInt < pub_n key) /\
  (forall (keys : KeyPair) (messageInt : Z),
     let message := JS.trim (fields w "plaintext-input"%string) in
     let n := pub_n (publicKey keys) in
     let maxBytes := MathUtils_bitLength n / 8 - 1 in
     currentKeys w = Some keys ->
     message <> [] ->
     MathUtils_stringToBigInt message = Normal messageInt ->
     messageInt >= n ->
     run EncryptClick w
     = emit (ShowError
               ("Message too large! Maximum message length: ~" ++
                pretty maxBytes ++ " bytes. Your message: " ++
                pretty (JS.length message) ++ " bytes."))
         (emit (Called (StringToBigInt message)) w) /\
     lastCiphertext (run EncryptClick w) = lastCiphertext w /\
     forall (m : Z) (key : PublicKey),
       ~ In (Called (Encrypt m key)) (performed EncryptClick w)).
Proof.
  split.
  - intros messageInt key.
    pose proof (performed_handleEncrypt_cases w) as C. simpl in C.
    destruct (currentKeys w) as [keys|].
    2:{ rewrite C. simpl. intros [E | []]. discriminate E. }
    destruct (JS.falsy _).
    { rewrite C. simpl. intros [E | []]. discriminate E. }
    destruct (MathUtils_stringToBigInt _) as [mi|text].
    2:{ rewrite C. simpl. intuition discriminate. }
    destruct (Z.geb_spec mi (pub_n (publicKey keys))) as [G | L].
    { rewrite C. simpl. intuition discriminate. }
    destruct C as [duration C]. rewrite C. simpl.
    intros [E | [E | [E | [E | [E | [E | []]]]]]]; try discriminate E.
    injection E as <- <-. exact L.
  - intros keys messageInt message n maxBytes K NE S G.
    assert (R : run EncryptClick w
                = emit (ShowError (RSAUI.messageTooLarge n message))
                    (emit (Called (StringToBigInt message)) w)).
    { simpl. unfold RSAUI.handleEncrypt, RSAUI.encryptMessage. rewrite K.
      fold message. destruct message as [|u t]; [contradiction|].
      simpl. rewrite S. simpl. fold n.
      destruct (Z.geb_spec messageInt n); [reflexivity|lia]. }
    split; [exact R|]. split; [rewrite R; reflexivity|].
    intros m key.
    pose proof (performed_handleEncrypt_cases w) as C. simpl in C.
    rewrite K in C. fold message in C.
    destruct message as [|u t]; [contradiction|]. simpl in C.
    rewrite S in C. fold n in C.
    destruct (Z.geb_spec messageInt n); [|lia].
    rewrite C. simpl. intuition discriminate.
Qed.

End Validation.


(** The sample keys have the modulus 64507, of 16 bits; the message "hi!"
    encodes to 23619873, which is too large: the maximum reported is
    16 / 8 - 1 = 1 byte. *)
Lemma encrypt_only_below_modulus_witness :
  let w :=
    set_fields (fun id => if String.eqb id "plaintext-input"
                          then JS.literal " hi! " else []) Sample.page_with_keys in
  run EncryptClick w
  = emit (ShowError
            "Message too large! Maximum message length: ~1 bytes. Your message: 3 bytes.")
      (emit (Called (StringToBigInt (JS.literal "hi!"))) w) /\
  lastCiphertext (run EncryptClick w) = None /\
  forall (m : Z) (key : PublicKey),
    ~ In (Called (Encrypt m key)) (performed EncryptClick w).
Proof.
  intros w.
  refine (proj2 (encrypt_only_below_modulus w) Sample.keys 23619873 _ _ _ _).
  - reflexivity.
  - discriminate.
  - reflexivity.
  - vm_compute. discriminate.
Defined.

(* ===================================================================== *)
(** * The hashes of the selected algorithms *)
(* ===================================================================== *)

Section SelectedHashes.
Context `{Collaborators}.

Lemma falsy_nonempty (s : jsstring) : s <> [] -> JS.falsy s = false.
Proof. destruct s; [contradiction|reflexivity]. Qed.

Lemma length_nonempty {A : Type} (l : list A) :
  l <> [] -> (Z.of_nat (List.length l) =? 0) = false.
Proof. destruct l; [contradiction|reflexivity]. Qed.

Lemma history_emit (e : Event) (w : World) :
  history (emit e w) = history w ++ [e].
Proof. reflexivity. Qed.

Lemma computations_app (l1 l2 : list Event) :
  computations (l1 ++ l2) = computations l1 ++ computations l2.
Proof. apply omap_app. Qed.




End SelectedHashes.


(* ===================================================================== *)
(** * The stages of key generation *)
(* ===================================================================== *)

Section KeyGenerationStages.
Context `{Collaborators}.

(** Prime generation reports its own stage only, once per candidate drawn,
    and at least once when it finds a prime. *)
Lemma generatePrime_stages (stage : string) (accept : Z -> bool) :
  forall (candidates : list Z) (attemptNo : Z),
    let reports := (RSACore.generatePrime stage accept attemptNo candidates).1 in
    let found := (RSACore.generatePrime stage accept attemptNo candidates).2 in
    map fst reports = replicate (List.length reports) stage /\
    (found <> None -> (1 <= List.length reports)%nat).
Proof.
  induction candidates as [|c rest IH]; intros attemptNo; simpl.
  - split; [reflexivity|congruence].
  - destruct (accept c); simpl.
    + split; [reflexivity|lia].
    + specialize (IH (attemptNo + 1)).
      destruct (RSACore.generatePrime stage accept (attemptNo + 1) rest)
        as [reports found].
      simpl in *. destruct IH as [M L]. split.
      * rewrite M at 1. reflexivity.
      * intros _. lia.
Qed.

(** The stages [generateKeyPair] reports: a prefix of the table, and the
    whole table when it returns a key pair. *)
Lemma generateKeyPair_stages (keySize : Z) (candidates : list Z) :
  let reports := (RSACore.generateKeyPair keySize candidates).1.1 in
  let outcome := (RSACore.generateKeyPair keySize candidates).1.2 in
  exists a b : nat,
    map fst reports `prefix_of` StageTable.stages a b /\
    forall keys : KeyPair, outcome = Normal keys ->
      map fst reports = StageTable.stages a b /\ (1 <= a)%nat /\ (1 <= b)%nat.
Proof.
  unfold RSACore.generateKeyPair, StageTable.stages, RSACore.Report in *.
  pose proof (generatePrime_stages "Generating prime p" RSACore.isPrimeNumber
                candidates 1) as P.
  destruct (RSACore.generatePrime "Generating prime p" _ 1 candidates)
    as [reports_p [[p rest]|]]; simpl in P; destruct P as [Mp Lp].
  2:{ simpl. exists (List.length reports_p), 0%nat. split; [|discriminate].
      rewrite Mp. eexists. reflexivity. }
  pose proof (generatePrime_stages "Generating prime q"
                (fun c => RSACore.isPrimeNumber c && negb (c =? p)) rest 1) as Q.
  destruct (RSACore.generatePrime "Generating prime q" _ 1 rest)
    as [reports_q [[q rest']|]]; simpl in Q; destruct Q as [Mq Lq].
  2:{ simpl. exists (List.length reports_p), (List.length reports_q).
      split; [|discriminate].
      rewrite List.map_app, Mp, Mq.
      eexists. rewrite <- app_assoc. reflexivity. }
  exists (List.length reports_p), (List.length reports_q).
  destruct (RSACore.modInverse _ _) as [d|]; simpl.
  - rewrite !List.map_app, Mp, Mq. simpl.
    rewrite <- !app_assoc. simpl. split; [reflexivity|].
    intros keys _. split; [reflexivity|].
    split; [apply Lp|apply Lq]; congruence.
  - split; [|discriminate].
    rewrite !List.map_app, Mp, Mq. simpl.
    exists ["Complete"%string]. rewrite <- !app_assoc. reflexivity.
Qed.

(** The step shown for a stage is the one of the table. *)
Lemma progressMessage_step (stage : string) (data : option Attempt) :
  StageTable.headline (RSAUI.progressMessage stage data) = StageTable.step stage.
Proof.
  unfold RSAUI.progressMessage, StageTable.step.
  repeat match goal with
         | |- context [String.eqb stage ?s] => destruct (String.eqb stage s)
         end; reflexivity.
Qed.

Lemma progress_shown_app (l1 l2 : list Event) :
  progress_shown (l1 ++ l2) = progress_shown l1 ++ progress_shown l2.
Proof. apply omap_app. Qed.

Lemma history_reportProgress (reports : list RSACore.Report) (w : World) :
  progress_shown (history (RSAUI.reportProgress reports w))
  = progress_shown (history w)
    ++ map (fun r => RSAUI.progressMessage r.1 r.2) reports.
Proof.
  unfold RSAUI.reportProgress. revert w.
  induction reports as [|r rest IH]; intros w; simpl.
  - rewrite app_nil_r. reflexivity.
  - rewrite IH. unfold history. simpl.
    rewrite !progress_shown_app. simpl. rewrite <- !app_assoc. reflexivity.
Qed.

(** C6. The progress messages a run of key generation shows are those of
    the stages [generateKeyPair] reports, in the order it reports them, each
    under the step of its stage: prime [p] (step 1/4), prime [q] (step 2/4),
    the modulus and the totient (both step 3/4), the private exponent
    (step 4/4), the completion message. The stages reported are always a
    prefix of that sequence, and the whole sequence, with at least one
    attempt at [p] and at [q], when a key pair is generated. *)
Theorem key_generation_stages (w : World) :
  let keySize := parseInt (selects w "key-size"%string) in
  let reports := (RSACore.generateKeyPair keySize (entropy w)).1.1 in
  let outcome := (RSACore.generateKeyPair keySize (entropy w)).1.2 in
  let w' := run GenerateKeysClick w in
  progress_shown (history w')
  = progress_shown (history w)
    ++ map (fun r => RSAUI.progressMessage r.1 r.2) reports /\
  Forall
    (fun r => StageTable.headline (RSAUI.progressMessage r.1 r.2)
              = StageTable.step r.1) reports /\
  exists a b : nat,
    map fst reports `prefix_of` StageTable.stages a b /\
    forall keys : KeyPair, outcome = Normal keys ->
      map fst reports = StageTable.stages a b /\ (1 <= a)%nat /\ (1 <= b)%nat /\
      currentKeys w' = Some keys.
Proof.
  intros keySize reports outcome w'.
  split; [|split].
  - subst w' reports. unfold run, RSAUI.handleGenerateKeys, RSAUI.displayKeys.
    fold keySize. simpl.
    destruct (RSACore.generateKeyPair keySize (entropy w))
      as [[reports [keys|message]] rest]; simpl;
      unfold history; simpl; rewrite !progress_shown_app; simpl;
      rewrite !app_nil_r;
      match goal with
      | |- context [RSAUI.reportProgress ?r ?w0] =>
          pose proof (history_reportProgress r w0) as E
      end; unfold history in E; simpl in E;
      rewrite !progress_shown_app in E; simpl in E;
      rewrite !app_nil_r in E; exact E.
  - apply Forall_forall. intros r _. apply progressMessage_step.
  - destruct (generateKeyPair_stages keySize (entropy w)) as (a & b & P & S).
    exists a, b. split; [exact P|].
    intros keys E. destruct (S keys E) as (M & La & Lb).
    repeat (split; [assumption|]).
    subst w' outcome. unfold run, RSAUI.handleGenerateKeys, RSAUI.displayKeys.
    fold keySize. simpl.
    destruct (RSACore.generateKeyPair keySize (entropy w))
      as [[reports' o] rest]. simpl in E. subst o. reflexivity.
Qed.

End KeyGenerationStages.

(* ===================================================================== *)
(** * Textbook RSA: decryption undoes encryption *)
(* ===================================================================== *)

Section RSAArithmetic.

Lemma modPow_loop_spec (exponent : positive) :
  forall result base modulus : Z,
    RSACore.modPow_loop result base exponent modulus
    = (result * base ^ Z.pos exponent) mod modulus.
Proof.
  induction exponent as [half IH | half IH |]; intros result base modulus; simpl.
  - rewrite IH.
    rewrite <- Zmult_mod_idemp_r, Z.mod_pow_l, Zmult_mod_idemp_r,
      Zmult_mod_idemp_l.
    f_equal. rewrite Pos2Z.inj_xI, Z.pow_add_r, Z.pow_mul_r by lia.
    rewrite Z.pow_2_r. ring.
  - rewrite IH.
    rewrite <- Zmult_mod_idemp_r, Z.mod_pow_l, Zmult_mod_idemp_r.
    f_equal. rewrite Pos2Z.inj_xO, Z.pow_mul_r by lia.
    rewrite Z.pow_2_r. reflexivity.
  - rewrite Z.pow_1_r. reflexivity.
Qed.

(** [modPow] is the power modulo the modulus. *)
Lemma modPow_spec (base exponent modulus : Z) :
  0 <= exponent ->
  RSACore.modPow base exponent modulus = base ^ exponent mod modulus.
Proof.
  intros NN. destruct exponent as [|e|e]; simpl.
  - reflexivity.
  - rewrite modPow_loop_spec, Z.mul_1_l. apply Z.mod_pow_l.
  - lia.
Qed.

Lemma extendedGcd_steps_bezout (steps : nat) :
  forall a b g x y : Z,
    RSACore.extendedGcd_steps steps a b = (g, x, y) -> a * x + b * y = g.
Proof.
  induction steps as [|steps IH]; intros a b g x y; simpl.
  - intros [= <- <- <-]. ring.
  - destruct (Z.eqb_spec b 0) as [->|NZ].
    + intros [= <- <- <-]. ring.
    + destruct (RSACore.extendedGcd_steps steps b (a mod b))
        as [[g' x'] y'] eqn:E.
      intros [= <- <- <-]. apply IH in E. rewrite <- E.
      rewrite (Z.div_mod a b NZ) at 1. ring.
Qed.

(** When [modInverse] gives an inverse, it is one, and it is reduced. *)
Lemma modInverse_spec (a m d : Z) :
  1 < m -> RSACore.modInverse a m = Some d ->
  (a * d) mod m = 1 /\ 0 <= d < m.
Proof.
  unfold RSACore.modInverse, RSACore.extendedGcd. intros Hm.
  destruct (RSACore.extendedGcd_steps _ a m) as [[g x] y] eqn:E.
  apply extendedGcd_steps_bezout in E.
  destruct (Z.eqb_spec g 1) as [->|]; [|discriminate].
  intros [= <-]. split.
  - rewrite Z.mul_mod_idemp_r by lia.
    replace (a * x) with (1 + (- y) * m) by lia.
    rewrite Z.mod_add by lia. apply Z.mod_small. lia.
  - apply Z.mod_pos_bound. lia.
Qed.

(** Trial division accepts primes only. *)
Lemma isPrimeNumber_prime (n : Z) :
  RSACore.isPrimeNumber n = true -> Z.prime n.
Proof.
  unfold RSACore.isPrimeNumber. intros T.
  apply andb_true_iff in T as [G F]. apply Z.ltb_lt in G.
  rewrite forallb_forall in F.
  split; [exact G|]. intros k R D.
  assert (I : In k (seqZ 2 (n - 2))).
  { apply list_elem_of_In, elem_of_seqZ. lia. }
  apply F in I. apply negb_true_iff, Z.eqb_neq in I.
  apply I, Z.mod_divide; [lia|exact D].
Qed.

Lemma generatePrime_accepts (stage : string) (accept : Z -> bool) :
  forall (candidates : list Z) (attemptNo : Z) (c : Z) (rest : list Z),
    (RSACore.generatePrime stage accept attemptNo candidates).2 = Some (c, rest) ->
    accept c = true.
Proof.
  induction candidates as [|c0 rest0 IH]; intros attemptNo c rest; simpl.
  - discriminate.
  - destruct (accept c0) eqn:A; simpl.
    + intros [= <- <-]. exact A.
    + specialize (IH (attemptNo + 1) c rest).
      destruct (RSACore.generatePrime stage accept (attemptNo + 1) rest0).
      exact IH.
Qed.

Lemma generateKeyPair_textbook (keySize : Z) (candidates : list Z)
    (keys : KeyPair) :
  (RSACore.generateKeyPair keySize candidates).1.2 = Normal keys ->
  textbook_keys keys.
Proof.
  unfold RSACore.generateKeyPair.
  pose proof (generatePrime_accepts "Generating prime p" RSACore.isPrimeNumber
                candidates 1) as Ap.
  destruct (RSACore.generatePrime "Generating prime p" _ 1 candidates)
    as [reports_p [[p rest]|]]; [|discriminate].
  specialize (Ap p rest eq_refl). apply isPrimeNumber_prime in Ap.
  pose proof (generatePrime_accepts "Generating prime q"
                (fun c => RSACore.isPrimeNumber c && negb (c =? p)) rest 1) as Aq.
  destruct (RSACore.generatePrime "Generating prime q" _ 1 rest)
    as [reports_q [[q rest']|]]; [|discriminate].
  specialize (Aq q rest' eq_refl). apply andb_true_iff in Aq as [Aq N].
  apply isPrimeNumber_prime in Aq. apply negb_true_iff, Z.eqb_neq in N.
  pose proof (Z.prime_ge_2 p Ap). pose proof (Z.prime_ge_2 q Aq).
  destruct (RSACore.modInverse _ _) as [d|] eqn:I; [|discriminate].
  apply modInverse_spec in I; [|nia].
  simpl. intros [= <-].
  constructor; simpl; try tauto; try reflexivity; lia.
Qed.

Lemma power_mod_prime (p k m : Z) :
  Z.prime p -> 0 <= k -> m ^ (1 + k * (p - 1)) mod p = m mod p.
Proof.
  intros P K. pose proof (Z.prime_ge_2 p P).
  rewrite Z.pow_add_r, Z.pow_1_r by nia.
  destruct (Z.eq_dec (m mod p) 0) as [Z0 | NZ].
  - rewrite <- Z.mul_mod_idemp_l, Z0 by lia. reflexivity.
  - rewrite <- Z.mul_mod_idemp_r by lia.
    rewrite (Z.mul_comm k), Z.pow_mul_r by lia.
    rewrite <- Z.mod_pow_l, (Z.fermat_nz p m P NZ), Z.pow_1_l by lia.
    rewrite Z.mul_mod_idemp_r, Z.mul_1_r by lia. reflexivity.
Qed.

Lemma distinct_primes_coprime (p q : Z) :
  Z.prime p -> Z.prime q -> p <> q -> Z.gcd p q = 1.
Proof.
  intros P Q N. pose proof (Z.prime_ge_2 p P). pose proof (Z.prime_ge_2 q Q).
  destruct (Z_lt_le_dec q p).
  - apply (Z.coprime_prime_small p q P). lia.
  - rewrite Z.gcd_comm. apply (Z.coprime_prime_small q p Q). lia.
Qed.

(** The identity of textbook RSA. *)
Lemma rsa_identity (p q e d m : Z) :
  Z.prime p -> Z.prime q -> p <> q ->
  0 <= e * d -> (e * d) mod ((p - 1) * (q - 1)) = 1 ->
  m ^ (e * d) mod (p * q) = m mod (p * q).
Proof.
  intros P Q N NN I.
  pose proof (Z.prime_ge_2 p P). pose proof (Z.prime_ge_2 q Q).
  set (phi := (p - 1) * (q - 1)) in *.
  assert (Hphi : 0 < phi) by (subst phi; nia).
  pose proof (Z.div_mod (e * d) phi ltac:(lia)) as D. rewrite I in D.
  assert (K : 0 <= e * d / phi) by (apply Z.div_pos; lia).
  set (k := e * d / phi) in *.
  assert (Ep : m ^ (e * d) mod p = m mod p).
  { replace (e * d) with (1 + (k * (q - 1)) * (p - 1)) by (subst phi; lia).
    apply power_mod_prime; [exact P|nia]. }
  assert (Eq : m ^ (e * d) mod q = m mod q).
  { replace (e * d) with (1 + (k * (p - 1)) * (q - 1)) by (subst phi; lia).
    apply power_mod_prime; [exact Q|nia]. }
  apply Z.cong_iff_0. apply Z.mod_divide; [nia|].
  apply Z.cong_iff_0, Z.mod_divide in Ep; [|lia].
  apply Z.cong_iff_0, Z.mod_divide in Eq; [|lia].
  destruct Ep as [c Ec]. rewrite Ec in Eq |- *.
  rewrite (Z.mul_comm c p) in Eq. apply Z.gauss in Eq.
  - destruct Eq as [c' ->]. exists c'. ring.
  - apply distinct_primes_coprime; auto.
Qed.

(** Decrypting with the private key what was encrypted with the public key
    gives back every message integer below the modulus. *)
Lemma decrypt_encrypt (keys : KeyPair) (messageInt : Z) :
  textbook_keys keys ->
  0 <= messageInt < pub_n (publicKey keys) ->
  RSACore.decrypt (RSACore.encrypt messageInt (publicKey keys)) (privateKey keys)
  = messageInt.
Proof.
  intros [Pp Pq N Npub Npriv T E D I] R.
  unfold RSACore.decrypt, RSACore.encrypt.
  rewrite !modPow_spec by lia.
  rewrite Npriv, Npub in *. rewrite Z.mod_pow_l, <- Z.pow_mul_r by lia.
  rewrite T in I. rewrite rsa_identity by (try assumption; nia).
  apply Z.mod_small. exact R.
Qed.

End RSAArithmetic.

(* ===================================================================== *)
(** * The ciphertext on its way through the page *)
(* ===================================================================== *)

Section BigIntText.

Lemma units_of_uint_digits (d : Decimal.uint) :
  Forall JS.decimal_digit (JS.units_of_uint d).
Proof.
  induction d; simpl; constructor; try assumption; unfold JS.decimal_digit; lia.
Qed.

Lemma digit_not_white_space (u : Z) :
  JS.decimal_digit u -> JS.is_white_space u = false.
Proof.
  unfold JS.decimal_digit, JS.is_white_space. intros R.
  repeat match goal with
         | |- context [?a =? ?b] =>
             destruct (Z.eqb_spec a b); [lia|]
         | |- context [?a <=? ?b] =>
             destruct (Z.leb_spec a b); [lia|]
         end.
  reflexivity.
Qed.

Lemma trimStart_id (s : jsstring) :
  Forall (fun u => JS.is_white_space u = false) s -> JS.trimStart s = s.
Proof.
  destruct 1 as [|u t Hu _]; simpl; [reflexivity|]. rewrite Hu. reflexivity.
Qed.

(** Trimming leaves a text without white space as it is. *)
Lemma trim_id (s : jsstring) :
  Forall (fun u => JS.is_white_space u = false) s -> JS.trim s = s.
Proof.
  intros F. unfold JS.trim, JS.trimEnd.
  rewrite (trimStart_id s F).
  rewrite trimStart_id by (apply Forall_rev; exact F).
  apply rev_involutive.
Qed.

Lemma parse_digits_acc (d : Decimal.uint) :
  forall acc : positive,
    JS.parse_digits 10 (Z.pos acc) (JS.units_of_uint d)
    = Some (Z.pos (Pos.of_uint_acc d acc)).
Proof.
  induction d; intros acc; simpl; try reflexivity;
    match goal with
    | |- JS.parse_digits 10 ?z _ = Some (Z.pos (Pos.of_uint_acc _ ?a)) =>
        replace z with (Z.pos a) by lia; apply IHd
    end.
Qed.

Lemma parse_digits_of_uint (d : Decimal.uint) :
  JS.parse_digits 10 0 (JS.units_of_uint d) = Some (Z.of_N (Pos.of_uint d)).
Proof.
  induction d; simpl; try reflexivity; try exact IHd; apply parse_digits_acc.
Qed.

Lemma radix_prefix_digits (s : jsstring) :
  Forall JS.decimal_digit s -> JS.radix_prefix s = None.
Proof.
  destruct 1 as [|a t _ [|b t' Hb _]]; simpl; try reflexivity.
  unfold JS.decimal_digit in Hb.
  destruct (a =? 48); [|reflexivity].
  repeat match goal with
         | |- context [?x =? ?y] => destruct (Z.eqb_spec x y); [lia|]
         end.
  reflexivity.
Qed.

(** The digits [toString] writes for a BigInt that is not negative carry no
    white space, are not empty, and read back as the same BigInt. *)
Lemma BigInt_toString_digits (z : Z) :
  0 <= z ->
  Forall JS.decimal_digit (JS.BigInt_toString z) /\ JS.BigInt_toString z <> [].
Proof.
  destruct z as [|p|p]; simpl; intros NN.
  - split; [|discriminate]. repeat constructor; unfold JS.decimal_digit; lia.
  - split; [apply units_of_uint_digits|].
    pose proof (DecimalPos.Unsigned.to_uint_nonnil p) as NNil.
    destruct (Pos.to_uint p); simpl; congruence.
  - lia.
Qed.

Lemma trim_BigInt_toString (z : Z) :
  0 <= z -> JS.trim (JS.BigInt_toString z) = JS.BigInt_toString z.
Proof.
  intros NN. apply trim_id.
  eapply Forall_impl; [apply BigInt_toString_digits; exact NN|].
  apply digit_not_white_space.
Qed.

Lemma BigInt_of_toString (z : Z) :
  0 <= z -> JS.BigInt (JS.BigInt_toString z) = Normal z.
Proof.
  intros NN. unfold JS.BigInt, JS.StringToBigInt.
  rewrite trim_BigInt_toString by exact NN.
  destruct (BigInt_toString_digits z NN) as [D NE].
  pose proof (radix_prefix_digits _ D) as RP.
  assert (P : JS.parse_digits 10 0 (JS.BigInt_toString z) = Some z).
  { destruct z as [|p|p]; simpl; [reflexivity| |lia].
    rewrite parse_digits_of_uint, DecimalPos.Unsigned.of_to. reflexivity. }
  destruct (JS.BigInt_toString z) as [|first rest]; [contradiction|].
  apply Forall_cons in D as [Hf _]. unfold JS.decimal_digit in Hf.
  destruct (Z.eqb_spec first 45); [lia|].
  destruct (Z.eqb_spec first 43); [lia|].
  rewrite RP. unfold JS.parse_nonempty. rewrite P. reflexivity.
Qed.

End BigIntText.

Section RoundTrip.
Context `{Collaborators}.

(** A click on "encrypt" with keys and a message that fits: the ciphertext is
    kept, displayed, and written into the decryption field. *)
Lemma handleEncrypt_success (w : World) (keys : KeyPair) (messageInt : Z) :
  let message := JS.trim (fields w "plaintext-input"%string) in
  let ciphertext := RSACore.encrypt messageInt (publicKey keys) in
  currentKeys w = Some keys ->
  message <> [] ->
  MathUtils_stringToBigInt message = Normal messageInt ->
  messageInt < pub_n (publicKey keys) ->
  exists (duration : string) (w0 : World),
    run EncryptClick w
    = emit (ConsoleLog "Encryption successful")
        (emit (EnableButton "decrypt-btn")
           (emit SetupCopyButtons
              (RSAUI.set_value "ciphertext-input"
                 (JS.BigInt_toString ciphertext)
                 (emit (DisplayResults "encryption-results"
                          (EncryptionView message
                             (JS.BigInt_toString messageInt)
                             (JS.BigInt_toString ciphertext)
                             duration (publicKey keys)))
                    w0)))) /\
    currentKeys w0 = Some keys /\
    lastCiphertext w0 = Some ciphertext.
Proof.
  intros message ciphertext K NE Enc R.
  unfold run, RSAUI.handleEncrypt, RSAUI.encryptMessage,
    RSAUI.displayEncryptionResults.
  rewrite K. fold message. rewrite (falsy_nonempty message NE).
  simpl. rewrite Enc. simpl.
  destruct (Z.geb_spec messageInt (pub_n (publicKey keys))); [lia|].
  simpl. rewrite K. fold ciphertext. do 2 eexists.
  split; [reflexivity|]. split; [exact K|reflexivity].
Qed.

(** A click on "decrypt" when the decryption field holds the decimal digits
    of a ciphertext. *)
Lemma handleDecrypt_success (w : World) (keys : KeyPair) (ciphertext : Z)
    (plaintextStr : jsstring) :
  currentKeys w = Some keys ->
  fields w "ciphertext-input"%string = JS.BigInt_toString ciphertext ->
  0 <= ciphertext ->
  MathUtils_bigIntToString (RSACore.decrypt ciphertext (privateKey keys))
  = Normal plaintextStr ->
  exists duration : string,
    history (run DecryptClick w)
    = history w ++
      [Called (Decrypt ciphertext (privateKey keys));
       Called (BigIntToString (RSACore.decrypt ciphertext (privateKey keys)));
       DisplayResults "decryption-results"
         (DecryptionView (JS.BigInt_toString ciphertext)
            (JS.BigInt_toString (RSACore.decrypt ciphertext (privateKey keys)))
            plaintextStr duration (privateKey keys));
       ConsoleLog "Decryption successful"].
Proof.
  intros K F C0 Dec.
  unfold run, RSAUI.handleDecrypt, RSAUI.decryptText,
    RSAUI.displayDecryptionResults.
  rewrite K, F.
  rewrite trim_BigInt_toString by exact C0.
  destruct (BigInt_toString_digits ciphertext C0) as [_ NEc].
  rewrite (falsy_nonempty _ NEc), (BigInt_of_toString ciphertext C0).
  cbn [performance_now invoke fst snd]. rewrite Dec.
  cbn [currentKeys emit set_effects set_clock]. rewrite K.
  eexists. unfold history. cbn [effects emit set_effects set_clock rev].
  rewrite <- !app_assoc. reflexivity.
Qed.


End RoundTrip.


(** On the sample page with the candidates 250, 251, 251, 257: two attempts
    at each prime, then the four single stages, and the key pair is kept. *)
Lemma key_generation_stages_witness :
  let w' := run GenerateKeysClick Sample.keygen_page in
  map StageTable.headline (progress_shown (history w'))
  = map Some
      ["Step 1/4:"; "Step 1/4:"; "Step 2/4:"; "Step 2/4:"; "Step 3/4:";
       "Step 3/4:"; "Step 4/4:"; "✓ Key generation complete!"]%string /\
  currentKeys w' = Some Sample.keys.
Proof.
  intros w'.
  destruct (key_generation_stages Sample.keygen_page) as (S & _ & a & b & _ & K).
  destruct (K Sample.keys) as (_ & _ & _ & C).
  - vm_compute. reflexivity.
  - split; [|exact C]. fold w' in S. rewrite S. vm_compute. reflexivity.
Defined.

(* ===================================================================== *)
(** * What the result of a run depends on *)
(* ===================================================================== *)

Section Dependence.
Context `{Collaborators}.

Ltac alike_names A :=
  destruct A as (?Hfields & ?Hselects & ?Hchecked & ?Hclock & ?Hentropy
                 & ?Heffects & ?Hkeys).

(** Rewrite with what is known of the first page of each pair. *)
Ltac alike_rewrite :=
  repeat match goal with
         | E : fields _ = fields _ |- _ => progress rewrite E
         | E : selects _ = selects _ |- _ => progress rewrite E
         | E : checkedAlgorithms _ = checkedAlgorithms _ |- _ =>
             progress rewrite E
         | E : clock _ = clock _ |- _ => progress rewrite E
         | E : entropy _ = entropy _ |- _ => progress rewrite E
         | E : effects _ = effects _ ++ _ |- _ => progress rewrite E
         end.

(** Two worlds built by the same updates from pages that are alike. *)
Ltac alike_leaf :=
  unfold alike; simpl; alike_rewrite;
  repeat split; try reflexivity; try assumption; auto;
  try (intro; intuition congruence).

Lemma computeSelected_alike (base : list Event) (k : bool) (input : jsstring) (algos : list string) :
  forall (results : gmap string HashEntry) (w1 w2 : World),
    alike base k w1 w2 ->
    (HashUI.computeSelected input algos results w1).1
    = (HashUI.computeSelected input algos results w2).1 /\
    alike base k (HashUI.computeSelected input algos results w1).2
      (HashUI.computeSelected input algos results w2).2.
Proof.
  induction algos as [|algo rest IH]; intros results w1 w2 A.
  - simpl. split; [reflexivity|exact A].
  - simpl. alike_names A. rewrite Hclock.
    destruct (HashCore_computeHash input algo) as [hash|message]; simpl.
    + apply IH. alike_leaf.
    + split; [reflexivity|]. alike_leaf.
Qed.

Lemma handleComputeHash_alike (base : list Event) (k : bool) (w1 w2 : World) :
  alike base k w1 w2 ->
  alike base k (HashUI.handleComputeHash w1) (HashUI.handleComputeHash w2).
Proof.
  intros A. pose proof A as A'. alike_names A'.
  unfold HashUI.handleComputeHash, HashUI.getSelectedAlgorithms,
    HashUI.displayHashResults.
  alike_rewrite.
  destruct (JS.falsy _); [alike_leaf|].
  destruct (_ =? 0); [alike_leaf|]. simpl. alike_rewrite.
  match goal with
  | |- context [HashUI.computeSelected ?i ?a ?r ?u1] =>
      match goal with
      | |- context [HashUI.computeSelected i a r ?u2] =>
          tryif constr_eq u1 u2 then fail else
            destruct (computeSelected_alike base k i a r u1 u2) as [E A2];
            [alike_leaf|];
            destruct (HashUI.computeSelected i a r u1) as [o1 v1];
            destruct (HashUI.computeSelected i a r u2) as [o2 v2]
      end
  end.
  simpl in E, A2. subst o2. alike_names A2.
  destruct o1; alike_leaf.
Qed.

Lemma avalancheTest_alike (base : list Event) (k : bool) (baseInput : jsstring) (algorithm : string)
    (w1 w2 : World) :
  alike base k w1 w2 ->
  (HashUI.avalancheTest baseInput algorithm w1).1
  = (HashUI.avalancheTest baseInput algorithm w2).1 /\
  alike base k (HashUI.avalancheTest baseInput algorithm w1).2
    (HashUI.avalancheTest baseInput algorithm w2).2.
Proof.
  intros A. alike_names A.
  unfold HashUI.avalancheTest, HashUI.displayAvalancheResults. simpl.
  repeat
    match goal with
    | |- context [match ?x with _ => _ end] => destruct x; simpl
    end; (split; [reflexivity|alike_leaf]).
Qed.

Lemma handleAvalanche_alike (base : list Event) (k : bool) (w1 w2 : World) :
  alike base k w1 w2 ->
  alike base k (HashUI.handleAvalanche w1) (HashUI.handleAvalanche w2).
Proof.
  intros A. pose proof A as A'. alike_names A'.
  unfold HashUI.handleAvalanche. alike_rewrite.
  destruct (JS.falsy _); [alike_leaf|]. simpl.
  match goal with
  | |- context [HashUI.avalancheTest ?i ?a ?u1] =>
      match goal with
      | |- context [HashUI.avalancheTest i a ?u2] =>
          tryif constr_eq u1 u2 then fail else
            destruct (avalancheTest_alike base k i a u1 u2) as [E A2];
            [alike_leaf|];
            destruct (HashUI.avalancheTest i a u1) as [o1 v1];
            destruct (HashUI.avalancheTest i a u2) as [o2 v2]
      end
  end.
  simpl in E, A2. subst o2. alike_names A2.
  destruct o1; alike_leaf.
Qed.

Lemma handleBirthdayCalculator_alike (base : list Event) (k : bool) (w1 w2 : World) :
  alike base k w1 w2 ->
  alike base k (HashUI.handleBirthdayCalculator w1)
    (HashUI.handleBirthdayCalculator w2).
Proof.
  intros A. alike_names A.
  unfold HashUI.handleBirthdayCalculator, HashUI.displayBirthdayResults.
  alike_rewrite.
  destruct (Config_getAlgorithmInfo _); alike_leaf.
Qed.

Lemma reportProgress_alike (base : list Event) (k : bool) (reports : list RSACore.Report) :
  forall w1 w2 : World,
    alike base k w1 w2 ->
    alike base k (RSAUI.reportProgress reports w1) (RSAUI.reportProgress reports w2).
Proof.
  unfold RSAUI.reportProgress.
  induction reports as [|r rest IH]; intros w1 w2 A; simpl.
  - exact A.
  - apply IH. alike_names A. alike_leaf.
Qed.

Lemma handleGenerateKeys_alike (base : list Event) (k : bool) (w1 w2 : World) :
  alike base k w1 w2 ->
  alike base k (RSAUI.handleGenerateKeys w1) (RSAUI.handleGenerateKeys w2).
Proof.
  intros A. pose proof A as A'. alike_names A'.
  unfold RSAUI.handleGenerateKeys, RSAUI.displayKeys. simpl. alike_rewrite.
  destruct (RSACore.generateKeyPair _ _) as [[reports outcome] rest].
  match goal with
  | |- context [RSAUI.reportProgress reports ?u1] =>
      match goal with
      | |- context [RSAUI.reportProgress reports ?u2] =>
          tryif constr_eq u1 u2 then fail else
            assert (A2 : alike base k (RSAUI.reportProgress reports u1)
                           (RSAUI.reportProgress reports u2))
              by (apply reportProgress_alike; alike_leaf);
            generalize dependent (RSAUI.reportProgress reports u1);
            generalize dependent (RSAUI.reportProgress reports u2)
      end
  end.
  intros v2 v1 A2. alike_names A2.
  destruct outcome; alike_leaf.
Qed.

Lemma handleEncrypt_alike (base : list Event) (w1 w2 : World) :
  alike base true w1 w2 ->
  alike base true (RSAUI.handleEncrypt w1) (RSAUI.handleEncrypt w2).
Proof.
  intros A. pose proof A as A'. alike_names A'.
  unfold RSAUI.handleEncrypt, RSAUI.encryptMessage,
    RSAUI.displayEncryptionResults.
  rewrite (Hkeys eq_refl). alike_rewrite.
  destruct (currentKeys w2) as [keys|] eqn:K; [|alike_leaf].
  destruct (JS.falsy _); [alike_leaf|]. simpl.
  destruct (MathUtils_stringToBigInt _); simpl; [|alike_leaf].
  destruct (_ >=? _); simpl; [alike_leaf|].
  rewrite (Hkeys eq_refl), K. alike_leaf.
Qed.

Lemma handleDecrypt_alike (base : list Event) (w1 w2 : World) :
  alike base true w1 w2 ->
  alike base true (RSAUI.handleDecrypt w1) (RSAUI.handleDecrypt w2).
Proof.
  intros A. pose proof A as A'. alike_names A'.
  unfold RSAUI.handleDecrypt, RSAUI.decryptText,
    RSAUI.displayDecryptionResults.
  rewrite (Hkeys eq_refl). alike_rewrite.
  destruct (currentKeys w2) as [keys|] eqn:K; [|alike_leaf].
  destruct (JS.falsy _); [alike_leaf|].
  destruct (JS.BigInt _); simpl; [|alike_leaf].
  destruct (MathUtils_bigIntToString _); simpl; [|alike_leaf].
  rewrite (Hkeys eq_refl), K. alike_leaf.
Qed.

(** A run of a demo handler takes pages that are alike to pages that are
    alike; the key pair has to be the same only for the handlers that read
    it. *)
Lemma run_alike (base : list Event) (k : bool) (h : Handler) (w1 w2 : World) :
  demo_handler h = true ->
  (reads_keys h = true -> k = true) ->
  alike base k w1 w2 ->
  alike base k (run h w1) (run h w2).
Proof.
  destruct h; simpl; intros D R A; try discriminate D.
  - apply handleComputeHash_alike, A.
  - apply handleAvalanche_alike, A.
  - apply handleBirthdayCalculator_alike, A.
  - apply handleGenerateKeys_alike, A.
  - rewrite (R eq_refl) in *. apply handleEncrypt_alike, A.
  - rewrite (R eq_refl) in *. apply handleDecrypt_alike, A.
Qed.

(** The effects of a run come after the effects performed before it, and
    are those the run performs from a page with no effect yet. *)
Lemma history_run (h : Handler) (w : World) :
  demo_handler h = true ->
  history (run h w) = history w ++ performed h w.
Proof.
  intros D.
  assert (A : alike (effects w) true w (set_effects [] w)).
  { unfold alike. simpl. repeat split. }
  apply (run_alike _ _ h _ _ D) in A; [|reflexivity].
  alike_names A. unfold performed, history.
  rewrite Heffects. apply rev_app_distr.
Qed.

(** C3, as the code has it. The result of an operation of the hash and RSA
    demos is decided by what the run is given -- the contents of the form
    controls, the readings of the clock, the candidates of the random
    generator -- and, for encryption and decryption only, by the key pair
    kept in [currentKeys]. It does not depend on [currentHashes],
    [lastInput] or [lastCiphertext], whatever ran before. *)
Theorem result_depends_on_inputs_and_keys (h : Handler) (w1 w2 : World) :
  demo_handler h = true ->
  same_inputs w1 w2 ->
  (reads_keys h = true -> currentKeys w1 = currentKeys w2) ->
  performed h w1 = performed h w2.
Proof.
  intros D (Hf & Hs & Hc & Hcl & He) K.
  assert (A : alike [] (reads_keys h) (set_effects [] w1) (set_effects [] w2)).
  { unfold alike. simpl. repeat split; assumption. }
  apply (run_alike _ _ h _ _ D) in A; [|tauto]. alike_names A.
  unfold performed, history. rewrite Heffects, app_nil_r. reflexivity.
Qed.

End Dependence.

(** C3 fails on the sample page: with "h" typed as plaintext, a click on
    "encrypt" shows an error before the keys are generated and the
    ciphertext after, the inputs being the same. *)
Lemma encrypt_result_depends_on_currentKeys :
  same_inputs Sample.page_with_keys (set_currentKeys None Sample.page_with_keys) /\
  performed EncryptClick Sample.page_with_keys
  <> performed EncryptClick (set_currentKeys None Sample.page_with_keys).
Proof.
  split.
  - repeat split.
  - intros E. vm_compute in E. discriminate E.
Qed.

(** On the sample page: the hashes computed do not depend on the key pair;
    the ciphertext does not depend on the hashes kept. *)
Lemma result_depends_on_inputs_and_keys_witness :
  performed ComputeHashClick Sample.hash_page
  = performed ComputeHashClick (set_currentKeys (Some Sample.keys) Sample.hash_page) /\
  performed EncryptClick Sample.page_with_keys
  = performed EncryptClick
      (set_lastInput [104] (set_lastCiphertext (Some 7) Sample.page_with_keys)).
Proof.
  split.
  - apply (result_depends_on_inputs_and_keys ComputeHashClick).
    + reflexivity.
    + repeat split.
    + discriminate.
  - apply (result_depends_on_inputs_and_keys EncryptClick).
    + reflexivity.
    + repeat split.
    + reflexivity.
Defined.

(* ===================================================================== *)
(** * Further facts about the model *)
(* ===================================================================== *)

Section EveryRunTells.
Context `{Collaborators}.

Ltac tells :=
  simpl;
  repeat first
    [ apply Exists_cons_hd; reflexivity
    | apply Exists_cons_tl ].

(** X18. Every run of a handler of the two demos ends with results drawn
    or with an error shown: a failure is never silent. *)
Lemma run_tells_outcome (h : Handler) (w : World) :
  demo_handler h = true ->
  Exists (fun e => tells_outcome e = true) (performed h w).
Proof.
  intros D. unfold performed, history. apply Exists_rev.
  destruct h; try discriminate D; unfold run.
  - unfold HashUI.handleComputeHash, HashUI.displayHashResults.
    destruct (JS.falsy _); [tells|].
    destruct (_ =? 0); [tells|]. simpl.
    destruct (HashUI.computeSelected _ _ _ _) as [[results|message] w1]; tells.
  - unfold HashUI.handleAvalanche.
    destruct (JS.falsy _); [tells|]. simpl.
    unfold HashUI.avalancheTest, HashUI.displayAvalancheResults. simpl.
    destruct (HashCore_computeHash _ _); simpl; [|tells].
    destruct (HashCore_computeHash _ _); simpl; [|tells].
    destruct (HashUtils_computeAvalanche _ _); simpl; [|tells].
    destruct (Config_getAlgorithmInfo _); simpl; [|tells].
    destruct (HashUI.avalancheQuality _); tells.
  - unfold HashUI.handleBirthdayCalculator, HashUI.displayBirthdayResults.
    destruct (Config_getAlgorithmInfo _); tells.
  - unfold RSAUI.handleGenerateKeys, RSAUI.displayKeys. simpl.
    destruct (RSACore.generateKeyPair _ _) as [[reports [keys|message]] rest];
      tells.
  - unfold RSAUI.handleEncrypt, RSAUI.encryptMessage,
      RSAUI.displayEncryptionResults. simpl.
    destruct (currentKeys w) as [keys|] eqn:K; [|tells].
    destruct (JS.falsy _); [tells|]. simpl.
    destruct (MathUtils_stringToBigInt _); simpl; [|tells].
    destruct (_ >=? _); simpl; [tells|].
    rewrite ?K. tells.
  - unfold RSAUI.handleDecrypt, RSAUI.decryptText,
      RSAUI.displayDecryptionResults. simpl.
    destruct (currentKeys w) as [keys|] eqn:K; [|tells].
    destruct (JS.falsy _); [tells|].
    destruct (JS.BigInt _); simpl; [|tells].
    destruct (MathUtils_bigIntToString _); simpl; [|tells].
    rewrite ?K. tells.
Qed.

End EveryRunTells.

Section EuclidTerminates.

(** With at least [b + 1] steps the extended Euclidean algorithm reaches
    the greatest common divisor. *)
Lemma extendedGcd_steps_gcd (steps : nat) :
  forall a b : Z,
    0 <= a -> 0 <= b < Z.of_nat steps ->
    (RSACore.extendedGcd_steps steps a b).1.1 = Z.gcd a b.
Proof.
  induction steps as [|steps IH]; intros a b Ha Hb; [lia|].
  simpl. destruct (Z.eqb_spec b 0) as [->|NZ].
  - simpl. rewrite Z.gcd_0_r. symmetry. apply Z.abs_eq. exact Ha.
  - pose proof (Z.mod_pos_bound a b ltac:(lia)) as R.
    specialize (IH b (a mod b) ltac:(lia) ltac:(lia)).
    destruct (RSACore.extendedGcd_steps steps b (a mod b)) as [[g x] y].
    simpl in *. rewrite IH.
    rewrite Z.gcd_comm, Z.gcd_mod by lia. apply Z.gcd_comm.
Qed.

(** The modular inverse is found whenever there is one. *)
Lemma modInverse_complete (a m : Z) :
  0 <= a -> 0 <= m -> Z.gcd a m = 1 ->
  exists d : Z, RSACore.modInverse a m = Some d.
Proof.
  intros Ha Hm G. unfold RSACore.modInverse, RSACore.extendedGcd.
  pose proof (extendedGcd_steps_gcd (S (Z.to_nat m)) a m Ha ltac:(lia)) as E.
  destruct (RSACore.extendedGcd_steps _ a m) as [[g x] y].
  simpl in E. rewrite E, G. simpl. eauto.
Qed.

End EuclidTerminates.

(* ===================================================================== *)
(** * Further properties of the handlers *)
(* ===================================================================== *)

(* ===================================================================== *)
(** * The theme across page loads *)
(* ===================================================================== *)

Section ThemePersistence.
Context `{Collaborators}.

Lemma themeToggle_applyTheme (theme : string) (w : World) :
  themeToggle (Theme.applyTheme theme w)
  = (fun btn =>
       {| textContent := if String.eqb theme "dark" then "🌕" else "🌑";
          ariaLabel := if String.eqb theme "dark" then "Switch to light mode"
                       else "Switch to dark mode";
          clickListeners := clickListeners btn |}) <$> themeToggle w.
Proof.
  unfold Theme.applyTheme. simpl.
  destruct (themeToggle w) eqn:B; simpl; rewrite ?B; reflexivity.
Qed.

(** A theme that is not the empty string is the preference read back from
    the storage it was saved in. *)
Lemma getThemePreference_saved (theme : string) (w : World) :
  theme <> ""%string ->
  localStorage w !! "theme"%string = Some theme ->
  Theme.getThemePreference w = theme.
Proof.
  intros NE L. unfold Theme.getThemePreference. rewrite L.
  destruct theme; [contradiction|reflexivity].
Qed.

Lemma getThemePreference_nonempty (w : World) :
  Theme.getThemePreference w <> ""%string.
Proof.
  unfold Theme.getThemePreference.
  destruct (localStorage w !! "theme"%string) as [[|c s]|]; simpl;
    try destruct (prefersDark w); discriminate.
Qed.

Lemma toggled_theme_nonempty (w : World) (theme : string) :
  dataTheme (Theme.toggleTheme w) = Some theme -> theme <> ""%string.
Proof.
  rewrite dataTheme_toggleTheme. intros [= <-].
  destruct (String.eqb _ _); discriminate.
Qed.

(** X1. On page load a saved preference wins over the system preference:
    [initTheme] applies the theme kept under 'theme' in [localStorage] when
    there is one and it is not the empty string, and otherwise 'dark' or
    'light' as the system prefers. *)
Theorem initTheme_preference (w : World) :
  (forall saved : string,
     localStorage w !! "theme"%string = Some saved -> saved <> ""%string ->
     dataTheme (Theme.initTheme w) = Some saved) /\
  (localStorage w !! "theme"%string = None \/
   localStorage w !! "theme"%string = Some ""%string ->
   dataTheme (Theme.initTheme w)
   = Some (if prefersDark w then "dark" else "light")%string).
Proof.
  destruct (storage_initTheme w) as [_ D]. rewrite D. split.
  - intros saved L NE. f_equal. apply getThemePreference_saved; assumption.
  - intros [L | L]; unfold Theme.getThemePreference; rewrite L; reflexivity.
Qed.

(** X2. The theme survives a reload: a page that loads with the
    [localStorage] left by a toggle, or by an initialization, gets from
    [initTheme] the theme that toggle or initialization applied, whatever
    the system prefers by then. *)
Theorem theme_survives_reload (w reloaded : World) :
  (localStorage reloaded = localStorage (Theme.toggleTheme w) ->
   dataTheme (Theme.initTheme reloaded) = dataTheme (Theme.toggleTheme w)) /\
  (localStorage reloaded = localStorage (Theme.initTheme w) ->
   dataTheme (Theme.initTheme reloaded) = dataTheme (Theme.initTheme w)).
Proof.
  split; intros L; destruct (storage_initTheme reloaded) as [_ D]; rewrite D.
  - destruct (dataTheme (Theme.toggleTheme w)) as [theme|] eqn:T.
    2:{ rewrite dataTheme_toggleTheme in T. discriminate. }
    f_equal. apply getThemePreference_saved.
    + exact (toggled_theme_nonempty w theme T).
    + rewrite L. unfold Theme.toggleTheme in *.
      rewrite localStorage_applyTheme, dataTheme_applyTheme in *.
      injection T as <-. apply lookup_insert_eq.
  - destruct (storage_initTheme w) as [Lw Dw]. rewrite Dw. f_equal.
    apply getThemePreference_saved.
    + apply getThemePreference_nonempty.
    + rewrite L, Lw. apply lookup_insert_eq.
Qed.

Lemma onSystemThemeChange_saved (matches : bool) (w : World) (theme : string) :
  theme <> ""%string ->
  localStorage w !! "theme"%string = Some theme ->
  Theme.onSystemThemeChange matches w = w.
Proof.
  intros NE L. unfold Theme.onSystemThemeChange. rewrite L.
  destruct theme; [contradiction|reflexivity].
Qed.

(** X3. The listener for changes of the system preference acts at most
    once, and never after a theme was applied: a second change leaves the
    page as the first one left it, and after [initTheme] or [toggleTheme] a
    change leaves the page as it is. *)
Theorem system_change_ignored_once_saved (w : World) (first second : bool) :
  Theme.onSystemThemeChange second (Theme.onSystemThemeChange first w)
  = Theme.onSystemThemeChange first w /\
  Theme.onSystemThemeChange first (Theme.initTheme w) = Theme.initTheme w /\
  Theme.onSystemThemeChange first (Theme.toggleTheme w) = Theme.toggleTheme w.
Proof.
  split; [|split].
  - destruct (Theme.truthy (localStorage w !! "theme"%string)) as [saved|] eqn:T.
    + unfold Theme.onSystemThemeChange. rewrite T. simpl. rewrite T.
      reflexivity.
    + assert (E : Theme.onSystemThemeChange first w
                  = Theme.applyTheme (if first then "dark" else "light") w).
      { unfold Theme.onSystemThemeChange. rewrite T. reflexivity. }
      rewrite E.
      apply (onSystemThemeChange_saved _ _ (if first then "dark" else "light")).
      * destruct first; discriminate.
      * rewrite localStorage_applyTheme. apply lookup_insert_eq.
  - apply (onSystemThemeChange_saved _ _ (Theme.getThemePreference w)).
    + apply getThemePreference_nonempty.
    + destruct (storage_initTheme w) as [L _]. rewrite L.
      apply lookup_insert_eq.
  - destruct (dataTheme (Theme.toggleTheme w)) as [theme|] eqn:T.
    2:{ rewrite dataTheme_toggleTheme in T. discriminate. }
    apply (onSystemThemeChange_saved _ _ theme).
    + exact (toggled_theme_nonempty w theme T).
    + unfold Theme.toggleTheme in *.
      rewrite localStorage_applyTheme, dataTheme_applyTheme in *.
      injection T as <-. apply lookup_insert_eq.
Qed.

(** X4. The toggle button tells what the next click does: after
    [toggleTheme] on a page with the button, its label is 'Switch to ...
    mode' for the theme the next [toggleTheme] applies, its icon is the full
    moon exactly under the dark theme, and its listeners are as before. A
    page without the button stays without it. *)
Theorem toggle_button_announces_next (w : World) :
  (forall btn : ToggleButton,
     themeToggle w = Some btn ->
     exists (btn' : ToggleButton) (next : string),
       themeToggle (Theme.toggleTheme w) = Some btn' /\
       dataTheme (Theme.toggleTheme (Theme.toggleTheme w)) = Some next /\
       ariaLabel btn' = ("Switch to " ++ next ++ " mode")%string /\
       textContent btn'
       = (if bool_decide (dataTheme (Theme.toggleTheme w) = Some "dark"%string)
          then "🌕" else "🌑")%string /\
       clickListeners btn' = clickListeners btn) /\
  (themeToggle w = None -> themeToggle (Theme.toggleTheme w) = None).
Proof.
  split.
  - intros btn B. rewrite !dataTheme_toggleTheme.
    unfold Theme.toggleTheme at 1. rewrite themeToggle_applyTheme, B. simpl.
    destruct (String.eqb (default "light"%string (Theme.truthy (dataTheme w)))
                "dark"); simpl; do 2 eexists; repeat split.
  - intros B. unfold Theme.toggleTheme.
    rewrite themeToggle_applyTheme, B. reflexivity.
Qed.

End ThemePersistence.

(** On a system that prefers light: with 'dark' saved the page loads dark,
    with nothing saved it loads light. *)
Lemma initTheme_preference_witness :
  let saved_dark :=
    set_localStorage {[ "theme"%string := "dark"%string ]} Sample.page in
  dataTheme (Theme.initTheme saved_dark) = Some "dark"%string /\
  dataTheme (Theme.initTheme Sample.page) = Some "light"%string.
Proof.
  intros saved_dark. split.
  - apply (proj1 (initTheme_preference saved_dark) "dark"%string).
    + reflexivity.
    + discriminate.
  - apply (proj2 (initTheme_preference Sample.page)). left. reflexivity.
Defined.

(** After a click on the toggle on the sample page, a page that loads with
    the storage left behind is dark again. *)
Lemma theme_survives_reload_witness :
  let reloaded :=
    set_localStorage (localStorage (Theme.toggleTheme Sample.page)) Sample.page in
  dataTheme (Theme.initTheme reloaded) = Some "dark"%string /\
  dataTheme (Theme.initTheme
               (set_localStorage (localStorage (Theme.initTheme Sample.page))
                  Sample.page))
  = Some "light"%string.
Proof.
  intros reloaded. split.
  - apply (proj1 (theme_survives_reload Sample.page reloaded)). reflexivity.
  - apply (proj2 (theme_survives_reload Sample.page
                    (set_localStorage
                       (localStorage (Theme.initTheme Sample.page))
                       Sample.page))).
    reflexivity.
Defined.

(** On the sample page with a toggle button: after one click the button
    offers to switch to light mode. *)
Lemma toggle_button_announces_next_witness :
  let w :=
    set_themeToggle
      (Some {| textContent := ""; ariaLabel := ""; clickListeners := 1 |})
      Sample.page in
  exists (btn' : ToggleButton) (next : string),
    themeToggle (Theme.toggleTheme w) = Some btn' /\
    dataTheme (Theme.toggleTheme (Theme.toggleTheme w)) = Some next /\
    ariaLabel btn' = ("Switch to " ++ next ++ " mode")%string /\
    textContent btn'
    = (if bool_decide (dataTheme (Theme.toggleTheme w) = Some "dark"%string)
       then "🌕" else "🌑")%string /\
    clickListeners btn' = 1%nat.
Proof.
  intros w.
  apply (proj1 (toggle_button_announces_next w)
           {| textContent := ""; ariaLabel := ""; clickListeners := 1 |}).
  reflexivity.
Defined.

(* ===================================================================== *)
(** * What a run of the hash page writes and draws *)
(* ===================================================================== *)

Section HashRuns.
Context `{Collaborators}.

Lemma computes_not_loading (e : Event) :
  computes e = true -> loading_event e = false.
Proof. destruct e; simpl; intros C; try reflexivity; discriminate C. Qed.

(** The loop of [handleComputeHash] only calls [HashCore.computeHash]: its
    effects are calls, and it leaves the module variables alone. *)
Lemma computeSelected_effects (input : jsstring) (algos : list string) :
  forall (results : gmap string HashEntry) (w : World),
  exists calls : list Event,
    history (HashUI.computeSelected input algos results w).2
    = history w ++ calls /\
    Forall (fun e => computes e = true) calls /\
    stored (HashUI.computeSelected input algos results w).2 = stored w.
Proof.
  induction algos as [|algo rest IH]; intros results w.
  - exists []. simpl. rewrite app_nil_r. repeat split. constructor.
  - simpl. destruct (HashCore_computeHash input algo) as [hash|message]; simpl.
    + match goal with
      | |- context [HashUI.computeSelected input rest ?r ?w0] =>
          destruct (IH r w0) as (calls & E & F & S)
      end.
      exists (Started (ComputeHash input algo)
              :: Settled (ComputeHash input algo) :: calls).
      rewrite E, S. unfold history. simpl. rewrite <- !app_assoc.
      repeat split. repeat constructor. exact F.
    + exists [Started (ComputeHash input algo); Settled (ComputeHash input algo)].
      unfold history. simpl. rewrite <- !app_assoc.
      repeat split. repeat constructor.
Qed.

(** The loop ends with the error of the first call that is rejected. *)
Lemma computeSelected_throw (input : jsstring) (done : list string) :
  forall (algo : string) (rest : list string) (message : string)
         (results : gmap string HashEntry) (w : World),
    Forall (fun a => exists hash, HashCore_computeHash input a = Normal hash)
      done ->
    HashCore_computeHash input algo = Throw message ->
    (HashUI.computeSelected input (done ++ algo :: rest) results w).1
    = Throw message.
Proof.
  induction done as [|a done IH]; intros algo rest message results w OK T.
  - simpl. rewrite T. reflexivity.
  - apply Forall_cons in OK as [[hash E] OK]. simpl. rewrite E. simpl.
    apply IH; assumption.
Qed.

(** X5. Hashing is all or nothing: when the hash of one selected algorithm
    is rejected (those before it being computed), [handleComputeHash] keeps
    [currentHashes] and [lastInput] as they were and draws no result; after
    the calls it made it logs and shows 'Hash computation failed: ' with the
    message of the rejection, and hides the loading indicator. *)
Theorem hash_failure_stores_nothing (w : World) (done rest : list string)
    (algo message : string) :
  let input := fields w "hash-input"%string in
  input <> [] ->
  checkedAlgorithms w = done ++ algo :: rest ->
  Forall (fun a => exists hash, HashCore_computeHash input a = Normal hash)
    done ->
  HashCore_computeHash input algo = Throw message ->
  stored (run ComputeHashClick w) = stored w /\
  exists calls : list Event,
    Forall (fun e => computes e = true) calls /\
    history (run ComputeHashClick w)
    = history w ++
      [ClearResults ["hash-results"%string];
       ShowLoading "hash-results" "Computing hashes..."] ++
      calls ++
      [ConsoleError "Hash computation failed:";
       ShowError ("Hash computation failed: " ++ message);
       HideLoading "hash-results"].
Proof.
  intros input NE S OK T.
  unfold run, HashUI.handleComputeHash, HashUI.getSelectedAlgorithms.
  fold input. rewrite (falsy_nonempty input NE), S.
  rewrite length_nonempty by (destruct done; discriminate).
  cbn [performance_now fst snd].
  match goal with
  | |- context [HashUI.computeSelected input ?a ?r ?w0] =>
      pose proof (computeSelected_throw input done algo rest message r w0 OK T)
        as O;
      destruct (computeSelected_effects input a r w0) as (calls & E & F & St);
      destruct (HashUI.computeSelected input a r w0) as [outcome w1]
  end.
  simpl in O, E, St. subst outcome. split.
  - unfold stored in *. simpl in *. exact St.
  - exists calls. split; [exact F|].
    unfold history in *. simpl in *. rewrite E.
    rewrite <- !app_assoc. reflexivity.
Qed.

Lemma stored_eq (w' w : World) :
  stored w' = stored w ->
  currentHashes w' = currentHashes w /\ lastInput w' = lastInput w /\
  currentKeys w' = currentKeys w /\ lastCiphertext w' = lastCiphertext w.
Proof. unfold stored. intros [= Eh Ei Ek El]. repeat split; assumption. Qed.

Lemma stored_avalancheTest (baseInput : jsstring) (algorithm : string)
    (w : World) :
  stored (HashUI.avalancheTest baseInput algorithm w).2 = stored w.
Proof.
  unfold HashUI.avalancheTest, HashUI.displayAvalancheResults. simpl.
  destruct (HashCore_computeHash baseInput algorithm); simpl; [|reflexivity].
  destruct (HashCore_computeHash _ algorithm); simpl; [|reflexivity].
  destruct (HashUtils_computeAvalanche _ _); simpl; [|reflexivity].
  destruct (Config_getAlgorithmInfo _); simpl; [|reflexivity].
  destruct (HashUI.avalancheQuality _); reflexivity.
Qed.

Lemma stored_handleAvalanche (w : World) :
  stored (HashUI.handleAvalanche w) = stored w.
Proof.
  unfold HashUI.handleAvalanche.
  destruct (JS.falsy _); [reflexivity|]. simpl.
  match goal with
  | |- context [HashUI.avalancheTest ?i ?a ?w0] =>
      pose proof (stored_avalancheTest i a w0) as E;
      destruct (HashUI.avalancheTest i a w0) as [[u|message] w1]
  end; simpl in *; exact E.
Qed.

Lemma stored_handleComputeHash (w : World) :
  currentKeys (HashUI.handleComputeHash w) = currentKeys w /\
  lastCiphertext (HashUI.handleComputeHash w) = lastCiphertext w.
Proof.
  unfold HashUI.handleComputeHash, HashUI.displayHashResults.
  destruct (JS.falsy _); [split; reflexivity|].
  destruct (_ =? 0); [split; reflexivity|]. simpl.
  match goal with
  | |- context [HashUI.computeSelected ?i ?a ?r ?w0] =>
      destruct (computeSelected_effects i a r w0) as (calls & _ & _ & E);
      destruct (HashUI.computeSelected i a r w0) as [[results|message] w1]
  end; simpl in *; apply stored_eq in E as (_ & _ & K & L); split; assumption.
Qed.

Lemma stored_reportProgress (reports : list RSACore.Report) (w : World) :
  stored (RSAUI.reportProgress reports w) = stored w.
Proof.
  unfold RSAUI.reportProgress. revert w.
  induction reports as [|r rest IH]; intros w; simpl; [reflexivity|].
  rewrite IH. reflexivity.
Qed.

Lemma stored_handleGenerateKeys (w : World) :
  currentHashes (RSAUI.handleGenerateKeys w) = currentHashes w /\
  lastInput (RSAUI.handleGenerateKeys w) = lastInput w /\
  lastCiphertext (RSAUI.handleGenerateKeys w) = lastCiphertext w.
Proof.
  unfold RSAUI.handleGenerateKeys, RSAUI.displayKeys. simpl.
  destruct (RSACore.generateKeyPair _ _) as [[reports [keys|message]] rest];
    simpl;
    match goal with
    | |- context [RSAUI.reportProgress reports ?w0] =>
        pose proof (stored_reportProgress reports w0) as E
    end; apply stored_eq in E as (Eh & Ei & _ & El); simpl in *;
    repeat split; assumption.
Qed.

Lemma stored_handleEncrypt (w : World) :
  currentHashes (RSAUI.handleEncrypt w) = currentHashes w /\
  lastInput (RSAUI.handleEncrypt w) = lastInput w /\
  currentKeys (RSAUI.handleEncrypt w) = currentKeys w.
Proof.
  unfold RSAUI.handleEncrypt, RSAUI.encryptMessage,
    RSAUI.displayEncryptionResults.
  destruct (currentKeys w) as [keys|] eqn:K; [|repeat split; exact K].
  destruct (JS.falsy _); [repeat split; exact K|]. simpl.
  destruct (MathUtils_stringToBigInt _); simpl; [|repeat split; exact K].
  destruct (_ >=? _); simpl; [repeat split; exact K|].
  rewrite K. simpl. repeat split; exact K.
Qed.

Lemma stored_handleDecrypt (w : World) :
  stored (RSAUI.handleDecrypt w) = stored w.
Proof.
  unfold RSAUI.handleDecrypt, RSAUI.decryptText,
    RSAUI.displayDecryptionResults.
  destruct (currentKeys w) as [keys|] eqn:K; [|reflexivity].
  destruct (JS.falsy _); [reflexivity|].
  destruct (JS.BigInt _); simpl; [|reflexivity].
  destruct (MathUtils_bigIntToString _); simpl; [|reflexivity].
  rewrite K. reflexivity.
Qed.

Lemma stored_applyTheme (theme : string) (w : World) :
  stored (Theme.applyTheme theme w) = stored w.
Proof. unfold Theme.applyTheme. simpl. destruct (themeToggle w); reflexivity. Qed.

(** X6. Which module variable a handler may write: [currentHashes] and
    [lastInput] are written by [handleComputeHash] only, [currentKeys] by
    [handleGenerateKeys] only, [lastCiphertext] by [handleEncrypt] only. The
    avalanche test, the birthday calculator, decryption and the theme
    handlers write none of them. *)
Theorem module_variables_written (h : Handler) (w : World) :
  (h <> ComputeHashClick ->
   currentHashes (run h w) = currentHashes w /\ lastInput (run h w) = lastInput w) /\
  (h <> GenerateKeysClick -> currentKeys (run h w) = currentKeys w) /\
  (h <> EncryptClick -> lastCiphertext (run h w) = lastCiphertext w).
Proof.
  assert (All : stored (run h w) = stored w ->
                (h <> ComputeHashClick ->
                 currentHashes (run h w) = currentHashes w /\
                 lastInput (run h w) = lastInput w) /\
                (h <> GenerateKeysClick -> currentKeys (run h w) = currentKeys w) /\
                (h <> EncryptClick -> lastCiphertext (run h w) = lastCiphertext w)).
  { intros E. apply stored_eq in E as (Eh & Ei & Ek & El). tauto. }
  destruct h; unfold run in *.
  - destruct (stored_handleComputeHash w) as [K L].
    split; [congruence|]. split; intros _; assumption.
  - apply All, stored_handleAvalanche.
  - apply All.
    unfold HashUI.handleBirthdayCalculator, HashUI.displayBirthdayResults.
    destruct (Config_getAlgorithmInfo _); reflexivity.
  - destruct (stored_handleGenerateKeys w) as (Eh & Ei & El).
    split; [intros _; split; assumption|]. split; [congruence|].
    intros _; assumption.
  - destruct (stored_handleEncrypt w) as (Eh & Ei & Ek).
    split; [intros _; split; assumption|]. split; [intros _; assumption|].
    congruence.
  - apply All, stored_handleDecrypt.
  - apply All. unfold Theme.initTheme.
    pose proof (stored_applyTheme (Theme.getThemePreference w) w) as E.
    destruct (themeToggle (Theme.applyTheme _ w)); exact E.
  - apply All. unfold Theme.toggleTheme. apply stored_applyTheme.
Qed.

End HashRuns.

(** With "hi" to hash and SHA-256, MD5, SHA-1 checked, MD5 being rejected:
    nothing is stored, one error is shown. *)
Lemma hash_failure_stores_nothing_witness :
  let w :=
    Sample.page_of (Sample.hi_in "hash-input") (fun _ => "SHA-256"%string)
      ["SHA-256"; "MD5"; "SHA-1"]%string [] in
  stored (run ComputeHashClick w) = stored w /\
  exists calls : list Event,
    Forall (fun e => computes e = true) calls /\
    history (run ComputeHashClick w)
    = history w ++
      [ClearResults ["hash-results"%string];
       ShowLoading "hash-results" "Computing hashes..."] ++
      calls ++
      [ConsoleError "Hash computation failed:";
       ShowError "Hash computation failed: CryptoJS is not loaded";
       HideLoading "hash-results"].
Proof.
  intros w.
  apply (hash_failure_stores_nothing w ["SHA-256"%string] ["SHA-1"%string]
           "MD5" "CryptoJS is not loaded").
  - discriminate.
  - reflexivity.
  - repeat constructor. eexists. reflexivity.
  - reflexivity.
Defined.

(** A click on "decrypt" on the sample page with keys writes no module
    variable. *)
Lemma module_variables_written_witness :
  let w := Sample.page_with_keys in
  (currentHashes (run DecryptClick w) = currentHashes w /\
   lastInput (run DecryptClick w) = lastInput w) /\
  currentKeys (run DecryptClick w) = currentKeys w /\
  lastCiphertext (run DecryptClick w) = lastCiphertext w.
Proof.
  intros w.
  destruct (module_variables_written DecryptClick w) as (A & B & C).
  split; [apply A; discriminate|].
  split; [apply B; discriminate|apply C; discriminate].
Defined.

(* ===================================================================== *)
(** * The loading indicators *)
(* ===================================================================== *)

Section Loading.
Context `{Collaborators}.

Lemma reportProgress_history (reports : list RSACore.Report) (w : World) :
  history (RSAUI.reportProgress reports w) = history w ++ progress_events reports.
Proof.
  unfold RSAUI.reportProgress, progress_events. revert w.
  induction reports as [|r rest IH]; intros w; simpl.
  - rewrite app_nil_r. reflexivity.
  - rewrite IH. unfold history. simpl. rewrite <- !app_assoc. reflexivity.
Qed.

Lemma progress_events_not_loading (reports : list RSACore.Report) :
  Forall (fun e => loading_event e = false) (progress_events reports).
Proof.
  unfold progress_events. induction reports as [|r rest IH]; simpl.
  - constructor.
  - repeat constructor. exact IH.
Qed.

Lemma filter_loading_calls (calls : list Event) :
  Forall (fun e => computes e = true) calls ->
  List.filter loading_event calls = [].
Proof.
  induction 1 as [|e l C _ IH]; simpl; [reflexivity|].
  rewrite (computes_not_loading e C). exact IH.
Qed.

Lemma filter_loading_progress (reports : list RSACore.Report) :
  List.filter loading_event (progress_events reports) = [].
Proof.
  unfold progress_events. induction reports as [|r rest IH]; simpl; auto.
Qed.

(** X7. A loading indicator that is shown is always hidden again. Once
    the validation has passed, a run of [handleComputeHash] and of
    [handleAvalanche] shows its indicator once and hides it once, as its
    last effect, whether the computation succeeds or fails. A run of
    [handleGenerateKeys] puts the button and then the progress element in
    their loading state, and ends by resetting the button and hiding the
    indicator, whether keys are generated or not. *)
Theorem loading_always_hidden (w : World) :
  (fields w "hash-input"%string <> [] -> checkedAlgorithms w <> [] ->
   List.filter loading_event (performed ComputeHashClick w)
   = [ShowLoading "hash-results" "Computing hashes...";
      HideLoading "hash-results"] /\
   last (performed ComputeHashClick w) = Some (HideLoading "hash-results")) /\
  (fields w "avalanche-input"%string <> [] ->
   List.filter loading_event (performed AvalancheClick w)
   = [ShowLoading "avalanche-results" "Computing avalanche effect...";
      HideLoading "avalanche-results"] /\
   last (performed AvalancheClick w) = Some (HideLoading "avalanche-results")) /\
  (List.filter loading_event (performed GenerateKeysClick w)
   = [SetButtonLoading "generate-keys-btn" "Generating...";
      ShowLoading "key-gen-progress" "Initializing key generation...";
      ResetButton "generate-keys-btn" "Generate RSA Keys";
      HideLoading "key-gen-progress"] /\
   last (performed GenerateKeysClick w) = Some (HideLoading "key-gen-progress")).
Proof.
  split; [|split].
  - intros NI NS.
    unfold performed, run, HashUI.handleComputeHash,
      HashUI.getSelectedAlgorithms, HashUI.displayHashResults.
    cbn [fields checkedAlgorithms set_effects].
    rewrite (falsy_nonempty _ NI), (length_nonempty _ NS).
    cbn [performance_now fst snd].
    match goal with
    | |- context [HashUI.computeSelected ?i ?a ?r ?w0] =>
        destruct (computeSelected_effects i a r w0) as (calls & E & F & _);
        destruct (HashUI.computeSelected i a r w0) as [[results|message] w1]
    end; unfold history in *; simpl in E |- *; rewrite E;
      (split; [|apply last_snoc]);
      rewrite !List.filter_app; simpl;
      rewrite (filter_loading_calls calls F); reflexivity.
  - intros NI.
    unfold performed, run, HashUI.handleAvalanche, HashUI.avalancheTest,
      HashUI.displayAvalancheResults.
    cbn [fields selects set_effects].
    rewrite (falsy_nonempty _ NI). unfold history. simpl.
    destruct (HashCore_computeHash _ _); simpl;
      [|split; reflexivity].
    destruct (HashCore_computeHash _ _); simpl;
      [|split; reflexivity].
    destruct (HashUtils_computeAvalanche _ _); simpl;
      [|split; reflexivity].
    destruct (Config_getAlgorithmInfo _); simpl;
      [|split; reflexivity].
    destruct (HashUI.avalancheQuality _); simpl.
    split; reflexivity.
  - unfold performed, run, RSAUI.handleGenerateKeys, RSAUI.displayKeys.
    cbn [selects entropy set_effects emit effects performance_now fst snd].
    destruct (RSACore.generateKeyPair _ _) as [[reports [keys|message]] rest];
      match goal with
      | |- context [RSAUI.reportProgress reports ?w0] =>
          pose proof (reportProgress_history reports w0) as E;
          generalize dependent (RSAUI.reportProgress reports w0)
      end; intros w1 E; unfold history in *; simpl in E |- *; rewrite E;
      (split; [|apply last_snoc]);
      rewrite !List.filter_app; simpl;
      rewrite ?List.filter_app, filter_loading_progress; reflexivity.
Qed.

End Loading.

(** On the sample page with "hi" to hash and two algorithms checked. *)
Lemma loading_always_hidden_witness :
  List.filter loading_event (performed ComputeHashClick Sample.hash_page)
  = [ShowLoading "hash-results" "Computing hashes...";
     HideLoading "hash-results"] /\
  last (performed ComputeHashClick Sample.hash_page)
  = Some (HideLoading "hash-results").
Proof.
  apply (proj1 (loading_always_hidden Sample.hash_page)); discriminate.
Defined.

(* ===================================================================== *)
(** * The avalanche test, run and input *)
(* ===================================================================== *)

Section AvalancheRun.
Context `{Collaborators}.


(** X9. The avalanche test never compares an input with itself: for a
    non-empty base input the modified input is a different string, and it is
    a string of code units again. *)
Theorem modifiedInput_differs (baseInput : jsstring) :
  JS.well_formed baseInput ->
  baseInput <> [] ->
  HashUI.modifiedInput baseInput <> baseInput /\
  JS.well_formed (HashUI.modifiedInput baseInput).
Proof.
  intros WF NE.
  destruct (exists_last NE) as (s & u & ->).
  unfold JS.well_formed in *.
  rewrite Forall_app, Forall_singleton in WF. destruct WF as [WFs WFu].
  rewrite modifiedInput_snoc by assumption. split.
  - intros E. apply app_inv_head in E. injection E as E.
    destruct (decide (u = 126)) as [->|N]; [discriminate|].
    destruct (Z.even u) eqn:Ev.
    + rewrite lxor_1_even in E by assumption. lia.
    + rewrite lxor_1_odd in E by assumption. lia.
  - rewrite Forall_app, Forall_singleton. split; [exact WFs|].
    destruct (decide (u = 126)); [unfold JS.code_unit; lia|].
    apply lxor_1_code_unit. exact WFu.
Qed.

(** X10. Flipping twice gives the base input back, except after [~] and
    DEL: for a base input ending in the code unit [u], the modified input of
    the modified input is the base input exactly when [u] is neither 126
    nor 127. *)
Theorem modifiedInput_twice (s : jsstring) (u : Z) :
  JS.code_unit u ->
  (HashUI.modifiedInput (HashUI.modifiedInput (s ++ [u])) = s ++ [u]
   <-> u <> 126 /\ u <> 127).
Proof.
  intros R.
  rewrite modifiedInput_snoc by assumption.
  destruct (decide (u = 126)) as [->|N126].
  - rewrite modifiedInput_snoc by (unfold JS.code_unit; lia). simpl.
    split; [|intros [? _]; congruence].
    intros E. apply app_inv_head in E. discriminate E.
  - rewrite modifiedInput_snoc by (apply lxor_1_code_unit; exact R).
    assert (B : Z.lxor (Z.lxor u 1) 1 = u).
    { rewrite Z.lxor_assoc, Z.lxor_nilpotent, Z.lxor_0_r. reflexivity. }
    destruct (decide (Z.lxor u 1 = 126)) as [E126|N].
    + assert (u = 127) as -> by (rewrite <- B, E126; reflexivity).
      split; [|intros [_ ?]; congruence].
      intros E. apply app_inv_head in E. discriminate E.
    + rewrite B. split; [|reflexivity]. intros _. split; [exact N126|].
      intros ->. apply N. reflexivity.
Qed.

End AvalancheRun.


(** "hi" becomes "hh", another string of code units. *)
Lemma modifiedInput_differs_witness :
  HashUI.modifiedInput [104; 105] <> [104; 105] /\
  JS.well_formed (HashUI.modifiedInput [104; 105]).
Proof.
  apply (modifiedInput_differs [104; 105]).
  - repeat constructor; vm_compute; discriminate.
  - discriminate.
Defined.

(** "hi" comes back after two flips; "h~" does not. *)
Lemma modifiedInput_twice_witness :
  HashUI.modifiedInput (HashUI.modifiedInput ([104] ++ [105])) = [104] ++ [105] /\
  HashUI.modifiedInput (HashUI.modifiedInput ([104] ++ [126])) <> [104] ++ [126].
Proof.
  split.
  - apply (modifiedInput_twice [104] 105).
    + unfold JS.code_unit. lia.
    + split; discriminate.
  - intros E. apply (modifiedInput_twice [104] 126) in E.
    + destruct E as [E _]. apply E. reflexivity.
    + unfold JS.code_unit. lia.
Defined.

(* ===================================================================== *)
(** * Runs of the RSA page *)
(* ===================================================================== *)

Section RSARuns.
Context `{Collaborators}.

Lemma filter_enables_progress (reports : list RSACore.Report) :
  List.filter enables (progress_events reports) = [].
Proof.
  unfold progress_events. induction reports as [|r rest IH]; simpl; auto.
Qed.

Lemma filter_draws_progress (reports : list RSACore.Report) :
  List.filter draws (progress_events reports) = [].
Proof.
  unfold progress_events. induction reports as [|r rest IH]; simpl; auto.
Qed.

Lemma fields_reportProgress (reports : list RSACore.Report) (w : World) :
  fields (RSAUI.reportProgress reports w) = fields w.
Proof.
  unfold RSAUI.reportProgress. revert w.
  induction reports as [|r rest IH]; intros w; simpl; [reflexivity|].
  rewrite IH. reflexivity.
Qed.

(** Key generation that succeeds keeps the form as it is and stores the
    keys. *)
Lemma handleGenerateKeys_success (w : World) (keys : KeyPair) :
  (RSACore.generateKeyPair (parseInt (selects w "key-size"%string))
     (entropy w)).1.2 = Normal keys ->
  currentKeys (run GenerateKeysClick w) = Some keys /\
  fields (run GenerateKeysClick w) = fields w.
Proof.
  unfold run, RSAUI.handleGenerateKeys, RSAUI.displayKeys.
  cbn [performance_now fst snd emit set_effects selects entropy].
  destruct (RSACore.generateKeyPair _ _) as [[reports outcome] rest].
  simpl. intros ->. simpl. split; [reflexivity|].
  rewrite fields_reportProgress. reflexivity.
Qed.

(** X11. What a run of key generation leaves behind. When keys are
    generated they are kept in [currentKeys], they are drawn, and the
    encryption button is enabled; they are keys of textbook RSA. When the
    generation fails, [currentKeys] holds what it held, neither a result is
    drawn nor a button enabled, and 'Key generation failed: ' is shown with
    the message of the failure. *)
Theorem key_generation_outcome (w : World) :
  let keySize := parseInt (selects w "key-size"%string) in
  let outcome := (RSACore.generateKeyPair keySize (entropy w)).1.2 in
  (forall keys : KeyPair, outcome = Normal keys ->
     currentKeys (run GenerateKeysClick w) = Some keys /\
     textbook_keys keys /\
     List.filter enables (performed GenerateKeysClick w)
     = [EnableButton "encrypt-btn"] /\
     exists duration : string,
       List.filter draws (performed GenerateKeysClick w)
       = [DisplayResults "key-gen-results" (KeysView keys duration)]) /\
  (forall message : string, outcome = Throw message ->
     currentKeys (run GenerateKeysClick w) = currentKeys w /\
     List.filter enables (performed GenerateKeysClick w) = [] /\
     List.filter draws (performed GenerateKeysClick w) = [] /\
     In (ShowError ("Key generation failed: " ++ message))
       (performed GenerateKeysClick w)).
Proof.
  intros keySize outcome. subst outcome keySize.
  unfold performed, run, RSAUI.handleGenerateKeys, RSAUI.displayKeys.
  simpl.
  pose proof (generateKeyPair_textbook
                (parseInt (selects w "key-size"%string)) (entropy w)) as T.
  destruct (RSACore.generateKeyPair _ (entropy w)) as [[reports o] rest].
  cbn [fst snd] in *.
  repeat
    match goal with
    | |- context [RSAUI.reportProgress reports ?u] =>
        let E := fresh "E" in
        let S := fresh "S" in
        pose proof (reportProgress_history reports u) as E;
        pose proof (stored_reportProgress reports u) as S;
        apply stored_eq in S as (_ & _ & S & _);
        generalize dependent (RSAUI.reportProgress reports u); intros
    end.
  unfold history in *. simpl in *.
  split.
  - intros keys ->. simpl.
    split; [reflexivity|]. split; [apply T; reflexivity|].
    repeat match goal with
           | E : rev (effects _) = _ |- _ => rewrite ?E; clear E
           end.
    rewrite !List.filter_app. simpl.
    rewrite ?List.filter_app, filter_enables_progress, filter_draws_progress.
    simpl. split; [reflexivity|]. eexists. reflexivity.
  - intros message ->. simpl.
    split; [assumption|].
    repeat match goal with
           | E : rev (effects _) = _ |- _ => rewrite ?E; clear E
           end.
    rewrite !List.filter_app. simpl.
    rewrite ?List.filter_app, filter_enables_progress, filter_draws_progress.
    simpl. split; [reflexivity|]. split; [reflexivity|].
    rewrite !in_app_iff. simpl. tauto.
Qed.

End RSARuns.

(** With the candidates 250, 251, 251, 257 the keys are generated and
    kept; with 250 and 251 only, no second prime is found and the keys kept
    before stay. *)
Lemma key_generation_outcome_witness :
  let short :=
    set_currentKeys (Some Sample.keys)
      (Sample.page_of (fun _ => []) (fun _ => "16"%string) [] [250; 251]) in
  currentKeys (run GenerateKeysClick Sample.keygen_page) = Some Sample.keys /\
  currentKeys (run GenerateKeysClick short) = Some Sample.keys /\
  In (ShowError "Key generation failed: Failed to generate prime q")
    (performed GenerateKeysClick short).
Proof.
  intros short.
  destruct (proj1 (key_generation_outcome Sample.keygen_page) Sample.keys)
    as (K & _).
  { vm_compute. reflexivity. }
  destruct (proj2 (key_generation_outcome short)
              "Failed to generate prime q"%string) as (K' & _ & _ & E).
  { vm_compute. reflexivity. }
  split; [exact K|]. split; [exact K'|exact E].
Defined.

Section RSAForms.
Context `{Collaborators}.

(** X12. The decryption button is enabled by [handleEncrypt] only when a
    ciphertext is there to decrypt: if a run enables it, keys were generated,
    the message integer was below the modulus, and the run leaves the
    ciphertext in [lastCiphertext] and its decimal digits in the decryption
    field. *)
Theorem decrypt_enabled_with_ciphertext (w : World) :
  In (EnableButton "decrypt-btn") (performed EncryptClick w) ->
  exists (keys : KeyPair) (messageInt : Z),
    currentKeys w = Some keys /\
    MathUtils_stringToBigInt (JS.trim (fields w "plaintext-input"%string))
    = Normal messageInt /\
    messageInt < pub_n (publicKey keys) /\
    lastCiphertext (run EncryptClick w)
    = Some (RSACore.encrypt messageInt (publicKey keys)) /\
    fields (run EncryptClick w) "ciphertext-input"%string
    = JS.BigInt_toString (RSACore.encrypt messageInt (publicKey keys)).
Proof.
  intros I.
  pose proof (performed_handleEncrypt_cases w) as C. simpl in C.
  destruct (currentKeys w) as [keys|] eqn:K.
  2:{ rewrite C in I. simpl in I. intuition discriminate. }
  destruct (JS.falsy _) eqn:F.
  { rewrite C in I. simpl in I. intuition discriminate. }
  destruct (MathUtils_stringToBigInt _) as [messageInt|text] eqn:S.
  2:{ rewrite C in I. simpl in I. intuition discriminate. }
  destruct (Z.geb_spec messageInt (pub_n (publicKey keys))) as [G | L].
  { rewrite C in I. simpl in I. intuition discriminate. }
  clear C I.
  assert (NE : JS.trim (fields w "plaintext-input"%string) <> []).
  { intros E. rewrite E in F. discriminate F. }
  destruct (handleEncrypt_success w keys messageInt K NE S L)
    as (duration & w0 & E & K0 & L0).
  exists keys, messageInt. split; [reflexivity|]. split; [reflexivity|].
  split; [exact L|]. rewrite E. split; [exact L0|reflexivity].
Qed.

Lemma trimStart_white_space_only (s : jsstring) :
  white_space_only s -> JS.trimStart s = [].
Proof.
  induction 1 as [|u t Hu _ IH]; simpl; [reflexivity|]. rewrite Hu. exact IH.
Qed.

(** Trimming a text of white space leaves nothing. *)
Lemma trim_white_space_only (s : jsstring) :
  white_space_only s -> JS.trim s = [].
Proof.
  intros W. unfold JS.trim. rewrite (trimStart_white_space_only s W).
  reflexivity.
Qed.

(** X13. The RSA forms are trimmed before they are checked: with keys
    generated, a plaintext made of white space only is refused as an empty
    one is, and so is a ciphertext made of white space only. *)
Theorem white_space_is_empty (w : World) (keys : KeyPair) :
  currentKeys w = Some keys ->
  (white_space_only (fields w "plaintext-input"%string) ->
   run EncryptClick w = emit (ShowError "Please enter a message to encrypt") w) /\
  (white_space_only (fields w "ciphertext-input"%string) ->
   run DecryptClick w = emit (ShowError "Please enter ciphertext to decrypt") w).
Proof.
  intros K. split; intros W; unfold run, RSAUI.handleEncrypt, RSAUI.handleDecrypt;
    rewrite K, (trim_white_space_only _ W); reflexivity.
Qed.

Lemma digit_value_no_radix (radix u : Z) :
  JS.digit_value 16 u = None -> JS.digit_value radix u = None.
Proof.
  unfold JS.digit_value.
  destruct ((48 <=? u) && (u <=? 57)) eqn:D.
  { apply andb_true_iff in D as [A B]. apply Z.leb_le in A, B.
    destruct (Z.ltb_spec (u - 48) 16); [discriminate|lia]. }
  destruct ((97 <=? u) && (u <=? 102)) eqn:L.
  { apply andb_true_iff in L as [A B]. apply Z.leb_le in A, B.
    destruct (Z.ltb_spec (u - 87) 16); [discriminate|lia]. }
  destruct ((65 <=? u) && (u <=? 70)) eqn:U.
  { apply andb_true_iff in U as [A B]. apply Z.leb_le in A, B.
    destruct (Z.ltb_spec (u - 55) 16); [discriminate|lia]. }
  reflexivity.
Qed.

Lemma parse_digits_foreign (radix u : Z) (s : jsstring) :
  In u s -> JS.digit_value radix u = None ->
  forall acc : Z, JS.parse_digits radix acc s = None.
Proof.
  intros I N. induction s as [|v t IH]; intros acc; [contradiction|].
  simpl. destruct I as [-> | I].
  - rewrite N. reflexivity.
  - destruct (JS.digit_value radix v); [apply IH; exact I|reflexivity].
Qed.

Lemma parse_nonempty_foreign (radix u : Z) (s : jsstring) :
  In u s -> JS.digit_value 16 u = None -> JS.parse_nonempty radix s = None.
Proof.
  intros I N. destruct s as [|v t]; [contradiction|].
  apply (parse_digits_foreign radix u); [exact I|].
  apply digit_value_no_radix, N.
Qed.

Lemma In_trimStart (u : Z) (s : jsstring) :
  In u s -> JS.is_white_space u = false -> In u (JS.trimStart s).
Proof.
  intros I N. induction s as [|v t IH]; [contradiction|]. simpl.
  destruct (JS.is_white_space v) eqn:W; [|exact I].
  destruct I as [-> | I]; [congruence|]. apply IH, I.
Qed.

Lemma In_trim (u : Z) (s : jsstring) :
  In u s -> JS.is_white_space u = false -> In u (JS.trim s).
Proof.
  intros I N. unfold JS.trim, JS.trimEnd.
  apply in_rev. rewrite rev_involutive.
  apply In_trimStart; [|exact N]. apply -> in_rev.
  apply In_trimStart; assumption.
Qed.

(** A text with a code unit that no integer literal has is no BigInt. *)
Lemma StringToBigInt_foreign (u : Z) (s : jsstring) :
  In u s -> foreign_unit u = true -> JS.StringToBigInt s = None.
Proof.
  intros I F. unfold foreign_unit in F.
  apply andb_true_iff in F as [F L]. apply andb_true_iff in F as [W D].
  apply negb_true_iff in W, L. apply bool_decide_eq_true in D.
  repeat (apply orb_false_iff in L as [L ?]).
  repeat match goal with
         | E : (_ =? _) = false |- _ => apply Z.eqb_neq in E
         end.
  apply (In_trim u s I) in W. unfold JS.StringToBigInt.
  destruct (JS.trim s) as [|first rest]; [contradiction|].
  assert (R : forall t, u <> first -> In u (first :: t) -> In u t).
  { intros t Nf [E | I']; congruence. }
  destruct (Z.eqb_spec first 45) as [->|N45].
  { rewrite (parse_nonempty_foreign 10 u rest); [reflexivity| |exact D].
    apply R; [congruence|exact W]. }
  destruct (Z.eqb_spec first 43) as [->|N43].
  { apply (parse_nonempty_foreign 10 u rest); [|exact D].
    apply R; [congruence|exact W]. }
  destruct (JS.radix_prefix (first :: rest)) as [[radix digits]|] eqn:P.
  - apply (parse_nonempty_foreign radix u digits); [|exact D].
    unfold JS.radix_prefix in P.
    destruct rest as [|letter t]; [discriminate|].
    destruct (Z.eqb_spec first 48) as [->|]; [|discriminate].
    assert (u <> 48) by (intros ->; discriminate D).
    assert (It : letter = 120 \/ letter = 88 \/ letter = 111 \/ letter = 79
                 \/ letter = 98 \/ letter = 66 -> digits = t /\ In u t).
    { intros Hl.
      assert (u <> letter).
      { intros ->. destruct Hl as [-> | [-> | [-> | [-> | [-> | ->]]]]];
          try congruence; discriminate D. }
      destruct W as [? | [? | W]]; try congruence.
      split; [|exact W].
      destruct Hl as [-> | [-> | [-> | [-> | [-> | ->]]]]]; simpl in P;
        congruence. }
    destruct (Z.eqb_spec letter 120); [destruct It as [-> Iu]; [tauto|exact Iu]|].
    destruct (Z.eqb_spec letter 88); [destruct It as [-> Iu]; [tauto|exact Iu]|].
    destruct (Z.eqb_spec letter 111); [destruct It as [-> Iu]; [tauto|exact Iu]|].
    destruct (Z.eqb_spec letter 79); [destruct It as [-> Iu]; [tauto|exact Iu]|].
    destruct (Z.eqb_spec letter 98); [destruct It as [-> Iu]; [tauto|exact Iu]|].
    destruct (Z.eqb_spec letter 66); [destruct It as [-> Iu]; [tauto|exact Iu]|].
    simpl in P. discriminate P.
  - apply (parse_nonempty_foreign 10 u (first :: rest)); assumption.
Qed.

(** X14. A ciphertext that is not an integer is refused before anything
    is decrypted: with keys generated, when the ciphertext field holds a code
    unit that is no white space, digit, sign or radix letter (a decimal
    point, a suffix [n], a letter beyond [f]), [handleDecrypt] logs and
    shows 'Decryption failed: ' with the message of the error of [BigInt],
    makes no call into [RSACore] or [MathUtils], and leaves the module
    variables as they were. *)
Theorem invalid_ciphertext_refused (w : World) (keys : KeyPair) (u : Z) :
  currentKeys w = Some keys ->
  In u (fields w "ciphertext-input"%string) ->
  foreign_unit u = true ->
  (exists text : string,
     run DecryptClick w
     = emit (ShowError ("Decryption failed: " ++ text))
         (emit (ConsoleError "Decryption failed:") w)) /\
  computations (history (run DecryptClick w)) = computations (history w) /\
  stored (run DecryptClick w) = stored w.
Proof.
  intros K I F.
  assert (W : JS.is_white_space u = false).
  { unfold foreign_unit in F. apply andb_true_iff in F as [F _].
    apply andb_true_iff in F as [F _]. apply negb_true_iff in F. exact F. }
  pose proof (In_trim u _ I W) as It.
  assert (R : run DecryptClick w
              = emit (ShowError
                        "Decryption failed: Cannot convert string to a BigInt")
                  (emit (ConsoleError "Decryption failed:") w)).
  { unfold run, RSAUI.handleDecrypt, RSAUI.decryptText, JS.BigInt.
    rewrite K.
    rewrite (StringToBigInt_foreign u _ It F).
    destruct (JS.trim (fields w "ciphertext-input"%string));
      [contradiction|reflexivity]. }
  rewrite R. split; [eexists; reflexivity|]. split; [|reflexivity].
  unfold history. simpl. rewrite !computations_app. simpl.
  rewrite !app_nil_r. reflexivity.
Qed.

End RSAForms.

(** On the sample page with keys and "h" as plaintext, encryption enables
    the decryption button, and the ciphertext is in the field. *)
Lemma decrypt_enabled_with_ciphertext_witness :
  exists (keys : KeyPair) (messageInt : Z),
    currentKeys Sample.page_with_keys = Some keys /\
    @MathUtils_stringToBigInt Sample.collaborators
      (JS.trim (fields Sample.page_with_keys "plaintext-input"%string))
    = Normal messageInt /\
    messageInt < pub_n (publicKey keys) /\
    lastCiphertext (run EncryptClick Sample.page_with_keys)
    = Some (RSACore.encrypt messageInt (publicKey keys)) /\
    fields (run EncryptClick Sample.page_with_keys) "ciphertext-input"%string
    = JS.BigInt_toString (RSACore.encrypt messageInt (publicKey keys)).
Proof.
  apply (decrypt_enabled_with_ciphertext Sample.page_with_keys).
  vm_compute. do 4 right. left. reflexivity.
Defined.

(** Two spaces as plaintext, with the sample keys. *)
Lemma white_space_is_empty_witness :
  let w :=
    set_fields (fun id => if String.eqb id "plaintext-input"
                          then [32; 32] else [9; 10]) Sample.page_with_keys in
  run EncryptClick w = emit (ShowError "Please enter a message to encrypt") w /\
  run DecryptClick w = emit (ShowError "Please enter ciphertext to decrypt") w.
Proof.
  intros w.
  destruct (white_space_is_empty w Sample.keys eq_refl) as [E D]. split.
  - apply E. repeat constructor.
  - apply D. repeat constructor.
Defined.

(** "12.5" as ciphertext, with the sample keys: the decimal point is
    foreign. *)
Lemma invalid_ciphertext_refused_witness :
  let w :=
    set_fields (fun id => if String.eqb id "ciphertext-input"
                          then [49; 50; 46; 53] else []) Sample.page_with_keys in
  (exists text : string,
     run DecryptClick w
     = emit (ShowError ("Decryption failed: " ++ text))
         (emit (ConsoleError "Decryption failed:") w)) /\
  computations (history (run DecryptClick w)) = computations (history w) /\
  stored (run DecryptClick w) = stored w.
Proof.
  intros w. apply (invalid_ciphertext_refused w Sample.keys 46).
  - reflexivity.
  - simpl. tauto.
  - reflexivity.
Defined.

Section Pipeline.
Context `{Collaborators}.

(** X15. Generate, encrypt, decrypt: when the three buttons are clicked
    in a row, key generation succeeds and the message typed fits the modulus,
    the decryption draws the message typed (trimmed). The string codec of
    [MathUtils] is taken as given: it encodes the message as an integer that
    is not negative and decodes that integer to the message. *)
Theorem generate_encrypt_decrypt (w : World) (keys : KeyPair) (messageInt : Z) :
  let message := JS.trim (fields w "plaintext-input"%string) in
  let ciphertext := RSACore.encrypt messageInt (publicKey keys) in
  let w1 := run GenerateKeysClick w in
  let w2 := run EncryptClick w1 in
  let w3 := run DecryptClick w2 in
  (RSACore.generateKeyPair (parseInt (selects w "key-size"%string))
     (entropy w)).1.2 = Normal keys ->
  message <> [] ->
  MathUtils_stringToBigInt message = Normal messageInt ->
  0 <= messageInt < pub_n (publicKey keys) ->
  MathUtils_bigIntToString messageInt = Normal message ->
  exists duration : string,
    history w3
    = history w2 ++
      [Called (Decrypt ciphertext (privateKey keys));
       Called (BigIntToString messageInt);
       DisplayResults "decryption-results"
         (DecryptionView (JS.BigInt_toString ciphertext)
            (JS.BigInt_toString messageInt) message duration
            (privateKey keys));
       ConsoleLog "Decryption successful"].
Proof.
  intros message ciphertext w1 w2 w3 G NE Enc R Dec.
  pose proof (generateKeyPair_textbook _ _ keys G) as T.
  pose proof (decrypt_encrypt keys messageInt T R) as RT.
  fold ciphertext in RT.
  assert (C0 : 0 <= ciphertext).
  { unfold ciphertext, RSACore.encrypt.
    destruct T. rewrite modPow_spec by lia.
    apply Z.mod_pos_bound. lia. }
  destruct (handleGenerateKeys_success w keys G) as [K1 F1].
  fold w1 in K1, F1.
  assert (NE1 : JS.trim (fields w1 "plaintext-input"%string) <> [])
    by (rewrite F1; exact NE).
  assert (Enc1 : MathUtils_stringToBigInt
                   (JS.trim (fields w1 "plaintext-input"%string))
                 = Normal messageInt) by (rewrite F1; exact Enc).
  destruct (handleEncrypt_success w1 keys messageInt K1 NE1 Enc1 (proj2 R))
    as (duration1 & w0 & E2 & K0 & L0).
  fold ciphertext w2 in E2.
  assert (K2 : currentKeys w2 = Some keys) by (rewrite E2; exact K0).
  assert (F2 : fields w2 "ciphertext-input"%string
               = JS.BigInt_toString ciphertext) by (rewrite E2; reflexivity).
  rewrite <- RT in Dec.
  destruct (handleDecrypt_success w2 keys ciphertext message K2 F2 C0 Dec)
    as [duration E3].
  exists duration. fold w3 in E3. rewrite E3, RT. reflexivity.
Qed.

(** X16. [updateProgress] has no default case: for a stage that is none
    of the six it knows, the message is empty and the progress element is
    emptied. The attempt is reported for the two prime stages only; for any
    other stage the message is the same with or without it. *)
Theorem progress_message_cases (stage : string) (data : option Attempt)
    (w : World) :
  (StageTable.step stage = None ->
   RSAUI.progressMessage stage data = [] /\
   RSAUI.updateProgress stage data w
   = emit (SetInnerHTML "key-gen-progress" [])
       (emit (ScrollToElement "key-gen-progress") w)) /\
  (stage <> "Generating prime p"%string ->
   stage <> "Generating prime q"%string ->
   RSAUI.progressMessage stage data = RSAUI.progressMessage stage None) /\
  (stage = "Generating prime p"%string \/ stage = "Generating prime q"%string ->
   forall a : Attempt,
     List.length (RSAUI.progressMessage stage (Some a)) = 2%nat /\
     List.length (RSAUI.progressMessage stage None) = 1%nat).
Proof.
  split; [|split].
  - intros N.
    assert (E : RSAUI.progressMessage stage data = []).
    { unfold StageTable.step in N. unfold RSAUI.progressMessage.
      repeat match goal with
             | _ : context [String.eqb stage ?s] |- _ =>
                 destruct (String.eqb stage s); [discriminate N|]
             end.
      reflexivity. }
    split; [exact E|]. unfold RSAUI.updateProgress. rewrite E. reflexivity.
  - intros Np Nq. unfold RSAUI.progressMessage.
    destruct (String.eqb_spec stage "Generating prime p"); [contradiction|].
    destruct (String.eqb_spec stage "Generating prime q"); [contradiction|].
    reflexivity.
  - intros [-> | ->] a; split; reflexivity.
Qed.

End Pipeline.

Section CiphertextText.

(** X17. The ciphertext is handed from encryption to decryption as text:
    for every BigInt, the text [toString] writes is not empty, is left as it
    is by [trim], and is read back by [BigInt] as the same integer. *)
Theorem BigInt_text_round_trip (z : Z) :
  JS.BigInt_toString z <> [] /\
  JS.trim (JS.BigInt_toString z) = JS.BigInt_toString z /\
  JS.BigInt (JS.BigInt_toString z) = Normal z.
Proof.
  destruct (Z_lt_le_dec z 0) as [Neg | NN].
  - destruct z as [|p|p]; try lia. simpl.
    assert (T : JS.trim (45 :: JS.units_of_uint (Pos.to_uint p))
                = 45 :: JS.units_of_uint (Pos.to_uint p)).
    { apply trim_id. constructor; [reflexivity|].
      eapply Forall_impl; [apply units_of_uint_digits|].
      apply digit_not_white_space. }
    split; [discriminate|]. split; [exact T|].
    unfold JS.BigInt, JS.StringToBigInt. rewrite T.
    change (45 =? 45) with true. cbv iota.
    destruct (BigInt_toString_digits (Z.pos p) ltac:(lia)) as [_ NE].
    simpl in NE. unfold JS.parse_nonempty.
    pose proof (parse_digits_of_uint (Pos.to_uint p)) as P.
    destruct (JS.units_of_uint (Pos.to_uint p)); [contradiction|].
    rewrite P, DecimalPos.Unsigned.of_to. reflexivity.
  - destruct (BigInt_toString_digits z NN) as [_ NE].
    split; [exact NE|]. split.
    + apply trim_BigInt_toString, NN.
    + apply BigInt_of_toString, NN.
Qed.

End CiphertextText.

(** On the sample page the three clicks give "h" back. *)
Lemma generate_encrypt_decrypt_witness :
  let w :=
    Sample.page_of (fun id => if String.eqb id "plaintext-input"
                              then [32; 104; 32] else [])
      (fun _ => "16"%string) [] [250; 251; 251; 257] in
  let w2 := run EncryptClick (run GenerateKeysClick w) in
  let w3 := run DecryptClick w2 in
  exists duration : string,
    history w3
    = history w2 ++
      [Called (Decrypt (RSACore.encrypt 360 (publicKey Sample.keys))
                 (privateKey Sample.keys));
       Called (BigIntToString 360);
       DisplayResults "decryption-results"
         (DecryptionView
            (JS.BigInt_toString (RSACore.encrypt 360 (publicKey Sample.keys)))
            (JS.BigInt_toString 360) [104] duration (privateKey Sample.keys));
       ConsoleLog "Decryption successful"].
Proof.
  intros w.
  apply (generate_encrypt_decrypt w Sample.keys 360).
  - vm_compute. reflexivity.
  - discriminate.
  - reflexivity.
  - vm_compute. split; [discriminate|reflexivity].
  - reflexivity.
Defined.

(** The stage 'Verifying' is none of the six: the progress element is
    emptied. The modulus stage ignores an attempt. *)
Lemma progress_message_cases_witness :
  RSAUI.progressMessage "Verifying" None = [] /\
  RSAUI.progressMessage "Computing modulus n"
    (Some {| attempt := 3; isPrime := true |})
  = RSAUI.progressMessage "Computing modulus n" None.
Proof.
  split.
  - apply (proj1 (progress_message_cases "Verifying" None Sample.page)).
    reflexivity.
  - apply (proj1 (proj2 (progress_message_cases "Computing modulus n"
                           (Some {| attempt := 3; isPrime := true |})
                           Sample.page))); discriminate.
Defined.

(** On the sample page, where nothing is typed, a click on "encrypt" tells
    its outcome by an error. *)
Lemma run_tells_outcome_witness :
  Exists (fun e => tells_outcome e = true) (performed EncryptClick Sample.page).
Proof.
  apply (run_tells_outcome EncryptClick Sample.page). reflexivity.
Defined.

Section Birthday.
Context `{Collaborators}.

Lemma birthdayRows_trace (hashBits : float) (items : list (float * string)) :
  forall w : World,
    let rows := (HashUI.birthdayRows hashBits items w).1 in
    let w' := (HashUI.birthdayRows hashBits items w).2 in
    history w'
    = history w ++
      List.map (fun r => Called (BirthdayProbability hashBits (row_attempts r)))
        rows /\
    stored w' = stored w /\
    List.map (fun r => (row_attempts r, row_label r)) rows = items /\
    Forall (fun r =>
              row_probability r
              = (HashUtils_birthdayAttackProbability hashBits (row_attempts r)
                 * 100)%float /\
              row_assessment r = HashUI.assessment (row_probability r)) rows.
Proof.
  induction items as [|[attempts label] rest IH]; intros w; simpl.
  - rewrite app_nil_r. repeat split; constructor.
  - unfold HashUI.birthdayRow. simpl.
    specialize (IH (emit (Called (BirthdayProbability hashBits attempts)) w)).
    destruct (HashUI.birthdayRows hashBits rest _) as [rows w'].
    simpl in *. destruct IH as (T & S & I & F).
    split; [|split; [|split]].
    + rewrite T. unfold history. simpl. rewrite <- app_assoc. reflexivity.
    + exact S.
    + rewrite I. reflexivity.
    + constructor; [split; reflexivity|exact F].
Qed.

(** X19. The birthday calculator, for an algorithm [Config] knows, asks
    [HashUtils] for the number of attempts at 50 percent and then for the
    collision probability at four attempt counts, 2^(n/4), 2^(n/3), 2^(n/2)
    and 2^(n/1.5) in this order (n the output bits), and draws one table with
    a row for each, beside the estimated years: the row's probability is 100 times the answer and its
    assessment is the one of that probability. No loading indicator is shown
    and no module variable is written. For an algorithm [Config] does not
    know, nothing is asked and an error is shown. *)
Theorem birthday_table (w : World) :
  let algorithm := selects w "birthday-algorithm"%string in
  (forall info : AlgorithmInfo,
     Config_getAlgorithmInfo algorithm = Some info ->
     let n := info_outputBits info in
     exists rows : list BirthdayRow,
       performed BirthdayClick w
       = [Called (AttemptsFor50 n)] ++
         List.map (fun r => Called (BirthdayProbability n (row_attempts r))) rows ++
         [DisplayResults "birthday-results"
            (BirthdayView info (HashUtils_attemptsFor50PercentCollision n)
               rows (HashUI.estimateCollisionTime n))] /\
       List.map row_attempts rows
       = [Math_pow 2 (n / 4)%float; Math_pow 2 (n / 3)%float;
          Math_pow 2 (n / 2)%float; Math_pow 2 (n / 1.5)%float] /\
       Forall (fun r =>
                 row_probability r
                 = (HashUtils_birthdayAttackProbability n (row_attempts r)
                    * 100)%float /\
                 row_assessment r = HashUI.assessment (row_probability r))
         rows /\
       stored (run BirthdayClick w) = stored w) /\
  (Config_getAlgorithmInfo algorithm = None ->
   performed BirthdayClick w = [ShowError "Invalid algorithm selected"] /\
   stored (run BirthdayClick w) = stored w).
Proof.
  intros algorithm. split.
  - intros info I n.
    unfold performed, run, HashUI.handleBirthdayCalculator.
    cbn [selects set_effects]. fold algorithm. rewrite I.
    unfold invoke. fold n.
    match goal with
    | |- context [HashUI.birthdayRows n ?items _] => set (its := items)
    end.
    pose proof (birthdayRows_trace n its
                  (emit (Called (AttemptsFor50 n)) (set_effects [] w))) as T.
    pose proof (birthdayRows_trace n its
                  (emit (Called (AttemptsFor50 n)) w)) as S.
    cbv zeta in T, S.
    destruct (HashUI.birthdayRows n its (emit _ (set_effects [] w)))
      as [rows w1].
    destruct (HashUI.birthdayRows n its (emit _ w)) as [rows' w2].
    simpl in T, S. destruct T as (T & _ & M & F). destruct S as (_ & S & _).
    exists rows.
    split; [|split; [|split]].
    + unfold HashUI.displayBirthdayResults, history. simpl.
      unfold history in T. simpl in T. rewrite T.
      reflexivity.
    + apply (f_equal (List.map fst)) in M.
      rewrite List.map_map in M. simpl in M. exact M.
    + exact F.
    + unfold HashUI.displayBirthdayResults. exact S.
  - intros N. unfold performed, run, HashUI.handleBirthdayCalculator.
    cbn [selects set_effects]. fold algorithm. rewrite N.
    split; reflexivity.
Qed.

End Birthday.

(** SHA-256 on the sample page. *)
Lemma birthday_table_witness :
  exists rows : list BirthdayRow,
    performed BirthdayClick Sample.page
    = [Called (AttemptsFor50 256)] ++
      List.map (fun r => Called (BirthdayProbability 256 (row_attempts r))) rows ++
      [DisplayResults "birthday-results"
         (BirthdayView {| info_name := "SHA-256"; info_outputBits := 256%float |}
            (@HashUtils_attemptsFor50PercentCollision Sample.collaborators 256)
            rows (@HashUI.estimateCollisionTime Sample.collaborators 256))].
Proof.
  destruct (proj1 (birthday_table Sample.page) _ eq_refl)
    as (rows & E & _).
  exists rows. exact E.
Defined.

Section NotANumber.
Context `{Collaborators}.

Lemma SFeqb_refl (x : SpecFloat.spec_float) :
  x <> SpecFloat.S754_nan -> SpecFloat.SFeqb x x = true.
Proof.
  intros N. unfold SpecFloat.SFeqb, SpecFloat.SFcompare.
  destruct x as [s|s| |s m e]; try contradiction.
  - destruct s; reflexivity.
  - destruct s; reflexivity.
  - destruct s; rewrite Z.compare_refl, Pos.compare_cont_refl; reflexivity.
Qed.

Lemma is_nan_Prim2SF (p : float) :
  PrimFloat.is_nan p = true <-> Prim2SF p = SpecFloat.S754_nan.
Proof.
  unfold PrimFloat.is_nan. rewrite FloatAxioms.eqb_spec. split.
  - intros E. destruct (Prim2SF p) eqn:P; try reflexivity;
      rewrite SFeqb_refl in E by discriminate; discriminate E.
  - intros ->. reflexivity.
Qed.

Lemma nan_ltb_l (p q : float) :
  PrimFloat.is_nan p = true -> (p <? q)%float = false.
Proof.
  intros N. apply is_nan_Prim2SF in N. rewrite FloatAxioms.ltb_spec, N. reflexivity.
Qed.

Lemma nan_ltb_r (p q : float) :
  PrimFloat.is_nan q = true -> (p <? q)%float = false.
Proof.
  intros N. apply is_nan_Prim2SF in N. rewrite FloatAxioms.ltb_spec, N.
  unfold SpecFloat.SFltb, SpecFloat.SFcompare.
  destruct (Prim2SF p) as [s|s| |s m e]; try destruct s; reflexivity.
Qed.

Lemma nan_div_l (p q : float) :
  PrimFloat.is_nan p = true -> PrimFloat.is_nan (p / q)%float = true.
Proof.
  intros N. apply is_nan_Prim2SF in N. apply is_nan_Prim2SF.
  rewrite FloatAxioms.div_spec, N. reflexivity.
Qed.

(** X20. A number that is not a number fails every comparison, so it
    takes the last branch: a collision probability that is not a number is
    assessed 'Practical Attack', and when [Math.pow] gives no number the
    estimated years are whatever [HashUtils.formatLargeNumber] makes of a
    value that is not a number. *)
Theorem not_a_number_takes_last_branch (x : float) :
  PrimFloat.is_nan x = true ->
  HashUI.assessment x
  = Element "span" (Some "insecure") [Text "⛔ Practical Attack"] /\
  (forall hashBits : float,
     Math_pow 2 (hashBits / 2)%float = x ->
     exists years : float,
       PrimFloat.is_nan years = true /\
       HashUI.estimateCollisionTime hashBits
       = HashUtils_formatLargeNumber years).
Proof.
  intros N. split.
  - unfold HashUI.assessment. rewrite !nan_ltb_l by exact N. reflexivity.
  - intros hashBits P. unfold HashUI.estimateCollisionTime. rewrite P.
    eexists. split; [|rewrite !nan_ltb_r; [reflexivity|..]];
      apply nan_div_l, nan_div_l, N.
Qed.

End NotANumber.

(** The value [nan] itself, assessed. *)
Lemma not_a_number_takes_last_branch_witness :
  HashUI.assessment nan
  = Element "span" (Some "insecure") [Text "⛔ Practical Attack"].
Proof.
  apply (@not_a_number_takes_last_branch Sample.collaborators nan). reflexivity.
Defined.
